(** * TaskGlitch: the task store, the CSV import, the view filter and the undo timer

    A shallow embedding of [App.tsx] (the component [App]) and [types.ts].

    Conventions of the embedding.
    - A JavaScript string is a [string] of 8-bit characters read as ASCII.
    - A JavaScript number is a [number]: [NaN], the two infinities, or an exact
      rational.  Rounding to binary64 and the sign of zero are not modelled.
    - [createdAt] holds [Date.now()] and integer offsets of it: a [Z].
    - What [JSON.parse] returns is a [Json] value; [JSON.parse] itself is a
      parameter of the load.
    - [priority] and [status] are strings, as they are at run time: the import
      stores [parts[4]] and [parts[5]] under a type cast only.
    - A React handler is a function from the state of the render that created
      it to the next state; handlers run one at a time. *)

From Stdlib Require Import List String Ascii Bool ZArith QArith Lia.
From Stdlib Require Import Permutation Sorted.
Import ListNotations.

Local Open Scope string_scope.
Local Open Scope list_scope.
Local Open Scope Z_scope.

(** ** JavaScript strings *)

Module JsString.

(** The double quote character, [U+0022]. *)
Definition dquote : ascii := "034"%char.
Definition comma : ascii := ","%char.
Definition newline : ascii := "010"%char.

(** [WhiteSpace] and [LineTerminator] code points below 128. *)
Definition isWhiteSpace (c : ascii) : bool :=
  let n := nat_of_ascii c in
  ((9 <=? n) && (n <=? 13))%nat || (n =? 32)%nat.

Definition isEmpty (s : string) : bool :=
  match s with EmptyString => true | String _ _ => false end.

Fixpoint trimStart (s : string) : string :=
  match s with
  | EmptyString => EmptyString
  | String c s' => if isWhiteSpace c then trimStart s' else s
  end.

Fixpoint trimEnd (s : string) : string :=
  match s with
  | EmptyString => EmptyString
  | String c s' =>
      let r := trimEnd s' in
      if isEmpty r && isWhiteSpace c then EmptyString else String c r
  end.

(** [String.prototype.trim]. *)
Definition trim (s : string) : string := trimEnd (trimStart s).

(** [String.prototype.split] with a separator of one character: the result
    always has at least one element. *)
Fixpoint split (sep : ascii) (s : string) : list string :=
  match s with
  | EmptyString => [EmptyString]
  | String c s' =>
      if Ascii.eqb c sep then EmptyString :: split sep s'
      else match split sep s' with
           | h :: t => String c h :: t
           | [] => [String c EmptyString]
           end
  end.

Definition lowerChar (c : ascii) : ascii :=
  let n := nat_of_ascii c in
  if ((65 <=? n) && (n <=? 90))%nat then ascii_of_nat (n + 32) else c.

(** [String.prototype.toLowerCase]. *)
Fixpoint toLowerCase (s : string) : string :=
  match s with
  | EmptyString => EmptyString
  | String c s' => String (lowerChar c) (toLowerCase s')
  end.

(** [s.includes(sub)]: [sub] occurs in [s] at some position. *)
Fixpoint includes (s sub : string) : bool :=
  String.prefix sub s ||
  match s with
  | EmptyString => false
  | String _ s' => includes s' sub
  end.

(** [s.replace(/x/g, '')] for a single character [x]. *)
Fixpoint removeAll (x : ascii) (s : string) : string :=
  match s with
  | EmptyString => EmptyString
  | String c s' =>
      if Ascii.eqb c x then removeAll x s' else String c (removeAll x s')
  end.

(** [c] occurs in [s]. *)
Fixpoint hasChar (c : ascii) (s : string) : bool :=
  match s with
  | EmptyString => false
  | String d s' => Ascii.eqb d c || hasChar c s'
  end.

(** [l.join(sep)] for a separator of one character. *)
Fixpoint join (sep : ascii) (l : list string) : string :=
  match l with
  | [] => EmptyString
  | [s] => s
  | s :: l' => (s ++ String sep (join sep l'))%string
  end.

End JsString.

(** ** JavaScript numbers *)

Module JsNumber.

Inductive number : Type :=
| NaN
| Infinity (negative : bool)
| Fin (q : Q).

Definition ofZ (z : Z) : number := Fin (inject_Z z).
Definition zero : number := ofZ 0.

Definition isZeroQ (q : Q) : bool := (Qnum q =? 0).
Definition isNegQ (q : Q) : bool := (Qnum q <? 0).

(** [ToBoolean] of a number: false for [NaN] and for zero. *)
Definition truthy (n : number) : bool :=
  match n with
  | NaN => false
  | Infinity _ => true
  | Fin q => negb (isZeroQ q)
  end.

(** [a || b] on numbers. *)
Definition orElse (a b : number) : number := if truthy a then a else b.

(** [n === 0]. *)
Definition isZero (n : number) : bool :=
  match n with Fin q => isZeroQ q | _ => false end.

(** [a / b]; a finite quotient is kept as a reduced fraction. *)
Definition div (a b : number) : number :=
  match a, b with
  | NaN, _ | _, NaN => NaN
  | Infinity _, Infinity _ => NaN
  | Infinity s, Fin q => Infinity (xorb s (isNegQ q))
  | Fin _, Infinity _ => zero
  | Fin x, Fin y =>
      if isZeroQ y then (if isZeroQ x then NaN else Infinity (isNegQ x))
      else Fin (Qred (x / y))
  end.

(** [a * b]. *)
Definition mul (a b : number) : number :=
  match a, b with
  | NaN, _ | _, NaN => NaN
  | Infinity s, Infinity s' => Infinity (xorb s s')
  | Infinity s, Fin q | Fin q, Infinity s =>
      if isZeroQ q then NaN else Infinity (xorb s (isNegQ q))
  | Fin x, Fin y => Fin (Qred (x * y))
  end.

(** *** [parseFloat] *)

Definition digitValue (c : ascii) : option Z :=
  let n := nat_of_ascii c in
  if ((48 <=? n) && (n <=? 57))%nat then Some (Z.of_nat (n - 48)) else None.

(** The longest run of decimal digits at the head of [s]: its value read after
    the digits of [acc], how many digits it has, and what follows it. *)
Fixpoint spanDigits (acc : Z) (count : nat) (s : string) : Z * nat * string :=
  match s with
  | EmptyString => (acc, count, s)
  | String c s' =>
      match digitValue c with
      | Some d => spanDigits (10 * acc + d) (S count) s'
      | None => (acc, count, s)
      end
  end.

(** An optional sign: whether it is a minus, and what follows it. *)
Definition takeSign (s : string) : bool * string :=
  match s with
  | String "+" s' => (false, s')
  | String "-" s' => (true, s')
  | _ => (false, s)
  end.

(** The value of an [ExponentPart] at the head of [s], 0 when there is none. *)
Definition exponentPart (s : string) : Z :=
  match s with
  | String c s' =>
      if Ascii.eqb c "e" || Ascii.eqb c "E" then
        let '(neg, s'') := takeSign s' in
        let '(e, n, _) := spanDigits 0 0 s'' in
        match n with
        | O => 0
        | S _ => if neg then - e else e
        end
      else 0
  | EmptyString => 0
  end.

(** [m * 10^e] as a reduced fraction. *)
Definition scale10 (m e : Z) : Q :=
  if 0 <=? e then inject_Z (m * 10 ^ e)
  else Qred (Qmake m (Z.to_pos (10 ^ (- e)))).

(** [parseFloat(s)]: leading white space is skipped, then the longest prefix
    that is a [StrDecimalLiteral] is read; [NaN] when there is none. *)
Definition parseFloat (s : string) : number :=
  let '(neg, s1) := takeSign (JsString.trimStart s) in
  if String.prefix "Infinity" s1 then Infinity neg
  else
    let '(ip, ni, r1) := spanDigits 0 0 s1 in
    let '(m, nf, r2) :=
      match r1 with
      | String "." r => spanDigits ip 0 r
      | _ => (ip, O, r1)
      end in
    match ni, nf with
    | O, O => NaN
    | _, _ =>
        let e := exponentPart r2 - Z.of_nat nf in
        Fin (scale10 (if neg then - m else m) e)
    end.

End JsNumber.

(** ** JSON values *)

Module JsJson.

(** A value that [JSON.parse] returns.  An object is the list of its keys
    with their values. *)
#[warnings="-register-all"]
Inductive Json : Type :=
| JNull
| JBool (b : bool)
| JNumber (q : Q)
| JString (s : string)
| JArray (items : list Json)
| JObject (fields : list (string * Json)).

End JsJson.

Import JsString JsNumber JsJson.

(** ** [types.ts] *)

Module Types.

(** [interface Task].  [priority] is one of ['High'], ['Medium'], ['Low'] and
    [status] one of ['Pending'], ['In Progress'], ['Completed'] for a task
    that respects its TypeScript type. *)
Record Task : Type := mkTask {
  id : string;
  title : string;
  revenue : number;
  timeTaken : number;
  roi : number;
  priority : string;
  status : string;
  notes : string;
  createdAt : Z
}.

(** [Partial<Task>]: [None] is a key the object does not have (a key that is
    present with the value [undefined] is not modelled). *)
Record PartialTask : Type := mkPartial {
  p_id : option string;
  p_title : option string;
  p_revenue : option number;
  p_timeTaken : option number;
  p_roi : option number;
  p_priority : option string;
  p_status : option string;
  p_notes : option string;
  p_createdAt : option Z
}.

(** [interface AppState]. *)
Record AppState : Type := mkState {
  tasks : list Task;
  lastDeletedTask : option Task;
  isUndoVisible : bool;
  isLoading : bool
}.

(** [PRIORITY_WEIGHTS[p]]: undefined ([None]) for a key outside [Priority]. *)
Definition PRIORITY_WEIGHTS (p : string) : option Z :=
  if String.eqb p "High" then Some 3
  else if String.eqb p "Medium" then Some 2
  else if String.eqb p "Low" then Some 1
  else None.

Definition isPriority (p : string) : bool :=
  String.eqb p "High" || String.eqb p "Medium" || String.eqb p "Low".

Definition isStatus (s : string) : bool :=
  String.eqb s "Pending" || String.eqb s "In Progress" || String.eqb s "Completed".

End Types.

Import Types.

(** ** [App.tsx]: the store operations *)

Module App.

Inductive DialogType : Type := add | edit | view.

(** The state of [dialogConfig]. *)
Record DialogConfig : Type := mkDialog {
  isOpen : bool;
  type : DialogType;
  selectedTask : option Task
}.

Definition orDefault {A : Type} (o : option A) (d : A) : A :=
  match o with Some a => a | None => d end.

(** [{ ...t, ...data }]: every key of [data] overrides the one of [t]. *)
Definition spread (t : Task) (data : PartialTask) : Task :=
  {| id := orDefault (p_id data) (id t);
     title := orDefault (p_title data) (title t);
     revenue := orDefault (p_revenue data) (revenue t);
     timeTaken := orDefault (p_timeTaken data) (timeTaken t);
     roi := orDefault (p_roi data) (roi t);
     priority := orDefault (p_priority data) (priority t);
     status := orDefault (p_status data) (status t);
     notes := orDefault (p_notes data) (notes t);
     createdAt := orDefault (p_createdAt data) (createdAt t) |}.

Definition setTasks (st : AppState) (ts : list Task) : AppState :=
  {| tasks := ts;
     lastDeletedTask := lastDeletedTask st;
     isUndoVisible := isUndoVisible st;
     isLoading := isLoading st |}.

(** [updateTask]: the new store state and the new dialog state. *)
Definition updateTask (st : AppState) (dialogConfig : DialogConfig)
    (data : PartialTask) : AppState * DialogConfig :=
  match selectedTask dialogConfig with
  | None => (st, dialogConfig)
  | Some sel =>
      let updatedTasks :=
        map (fun t => if String.eqb (id t) (id sel) then spread t data else t)
            (tasks st) in
      (setTasks st updatedTasks,
       {| isOpen := false; type := type dialogConfig; selectedTask := None |})
  end.

Definition deleteTask (st : AppState) (task : Task) : AppState :=
  {| tasks := filter (fun t => negb (String.eqb (id t) (id task))) (tasks st);
     lastDeletedTask := Some task;
     isUndoVisible := true;
     isLoading := isLoading st |}.

Definition undoDelete (st : AppState) : AppState :=
  match lastDeletedTask st with
  | Some deleted =>
      {| tasks := tasks st ++ [deleted];
         lastDeletedTask := None;
         isUndoVisible := false;
         isLoading := isLoading st |}
  | None => st
  end.

Definition closeUndoSnackbar (st : AppState) : AppState :=
  {| tasks := tasks st;
     lastDeletedTask := None;
     isUndoVisible := false;
     isLoading := isLoading st |}.

(** [a || b] on strings: the empty string is falsy. *)
Definition strOr (a b : string) : string := if isEmpty a then b else a.

(** [o[k]] for an object with the keys [fields]. *)
Fixpoint getKey (k : string) (fields : list (string * Json)) : option Json :=
  match fields with
  | [] => None
  | (k', v) :: rest => if String.eqb k' k then Some v else getKey k rest
  end.

Definition asString (v : option Json) : option string :=
  match v with Some (JString s) => Some s | _ => None end.

Definition asNumber (v : option Json) : option number :=
  match v with Some (JNumber q) => Some (Fin q) | _ => None end.

Definition asInteger (v : option Json) : option Z :=
  match v with
  | Some (JNumber q) => if Pos.eqb (Qden q) 1 then Some (Qnum q) else None
  | _ => None
  end.

(** The [Task] record that a JSON value is: an object with the nine keys of
    [Task] and no other, each at the type of its field.  [None] for every
    other value, which no [Task] record stands for. *)
Definition asTask (v : Json) : option Task :=
  match v with
  | JObject fields =>
      if (List.length fields =? 9)%nat then
        match asString (getKey "id" fields), asString (getKey "title" fields),
              asNumber (getKey "revenue" fields), asNumber (getKey "timeTaken" fields),
              asNumber (getKey "roi" fields), asString (getKey "priority" fields),
              asString (getKey "status" fields), asString (getKey "notes" fields),
              asInteger (getKey "createdAt" fields) with
        | Some i, Some ti, Some rev, Some time, Some ro, Some p, Some st, Some n, Some c =>
            Some (mkTask i ti rev time ro p st n c)
        | _, _, _, _, _, _, _, _, _ => None
        end
      else None
  | _ => None
  end.

Fixpoint allTasks (items : list Json) : option (list Task) :=
  match items with
  | [] => Some []
  | v :: rest =>
      match asTask v, allTasks rest with
      | Some t, Some ts => Some (t :: ts)
      | _, _ => None
      end
  end.

(** The list of [Task] records that a JSON value is: an array whose every
    element is a [Task] record. *)
Definition asTasks (v : Json) : option (list Task) :=
  match v with
  | JArray items => allTasks items
  | _ => None
  end.

(** The outcome of the initial load.  The update of [loadTasks] puts what
    [JSON.parse] returned into [tasks] as it is: [Loaded st] is the state
    after the update when that value is a list of [Task] records (and for
    the seed set); [LoadedRaw v] is the same update for a value [v] that is
    no list of [Task] records: [tasks] is [v], [isLoading] is false and the
    other fields are those of the state before; [Thrown] is the exception
    that the update lets through. *)
Inductive LoadResult : Type :=
| Loaded (st : AppState)
| LoadedRaw (v : Json)
| Thrown.

(** *** CSV import and the view, over the helpers of [utils/helpers] *)

Section WithHelpers.

(** [generateId()] and [Date.now()], by the number of calls made before in the
    same handler. *)
Variable generateId : nat -> string.
Variable dateNow : nat -> Z.
Variable calculateROI : number -> number -> number.
Variable sortTasks : list Task -> list Task.

(** The body of the import loop at index [i], on [lines[i]]. *)
Definition importLine (i : nat) (rawLine : string) (newTasks : list Task)
    : list Task :=
  let line := trim rawLine in
  if isEmpty line then newTasks
  else
    let parts := split comma line in
    if (6 <=? List.length parts)%nat then
      let rev := orElse (parseFloat (nth 1 parts "")) zero in
      let time := orElse (parseFloat (nth 2 parts "")) zero in
      let calls := List.length newTasks in
      newTasks ++
      [ {| id := generateId calls;
           title := removeAll dquote (nth 0 parts "");
           revenue := rev;
           timeTaken := time;
           roi := calculateROI rev time;
           priority := strOr (nth 4 parts "") "Low";
           status := strOr (nth 5 parts "") "Pending";
           notes := removeAll dquote (strOr (nth 6 parts "") "");
           createdAt := dateNow calls - Z.of_nat i * 1000 |} ]
    else newTasks.

(** The loop [for (let i = ...; i < lines.length; i++)] from index [i] on. *)
Fixpoint importLoop (i : nat) (lines : list string) (newTasks : list Task)
    : list Task :=
  match lines with
  | [] => newTasks
  | l :: ls => importLoop (S i) ls (importLine i l newTasks)
  end.

(** [newTasks] at the end of [reader.onload]: the loop starts at index 1. *)
Definition importedTasks (text : string) : list Task :=
  importLoop 1 (tl (split newline text)) [].

(** [handleImportCSV] once the file has been read as [text]. *)
Definition handleImportCSV (st : AppState) (text : string) : AppState :=
  let newTasks := importedTasks text in
  if (0 <? List.length newTasks)%nat then setTasks st (newTasks ++ tasks st) else st.

(** The predicate of the filter in [displayTasks]. *)
Definition matchesFilters (searchQuery filterStatus filterPriority : string)
    (t : Task) : bool :=
  let matchesSearch := includes (toLowerCase (title t)) (toLowerCase searchQuery) in
  let matchesStatus :=
    String.eqb filterStatus "All" || String.eqb (status t) filterStatus in
  let matchesPriority :=
    String.eqb filterPriority "All" || String.eqb (priority t) filterPriority in
  matchesSearch && matchesStatus && matchesPriority.

Definition displayTasks (st : AppState)
    (searchQuery filterStatus filterPriority : string) : list Task :=
  sortTasks (filter (matchesFilters searchQuery filterStatus filterPriority) (tasks st)).

(** *** Initial load *)

(** [JSON.parse(saved)]; [None] is a [SyntaxError]. *)
Variable JSON_parse : string -> option Json.

Definition initialTasks : list Task :=
  [ mkTask (generateId 0) "Enterprise Sales Deck" (ofZ 15000) (ofZ 20) (ofZ 750)
      "High" "In Progress" "Key account review." (dateNow 0);
    mkTask (generateId 1) "Lead Outreach Phase 1" (ofZ 2500) (ofZ 10) (ofZ 250)
      "Medium" "Completed" "Standard outreach." (dateNow 1 - 5000);
    mkTask (generateId 2) "Admin & Reporting" (ofZ 0) (ofZ 5) (ofZ 0)
      "Low" "Pending" "Monthly cleanup." (dateNow 2 - 10000) ].

Definition finishLoad (prev : AppState) (ts : list Task) : AppState :=
  {| tasks := ts;
     lastDeletedTask := lastDeletedTask prev;
     isUndoVisible := isUndoVisible prev;
     isLoading := false |}.

(** [loadTasks] with [saved = localStorage.getItem(...)] ([None] is [null]):
    the state after the update, or the exception of [JSON.parse]. *)
Definition loadTasks (saved : option string) (prev : AppState) : LoadResult :=
  match saved with
  | Some blob =>
      if isEmpty blob then Loaded (finishLoad prev initialTasks)
      else match JSON_parse blob with
           | Some v =>
               match asTasks v with
               | Some ts => Loaded (finishLoad prev ts)
               | None => LoadedRaw v
               end
           | None => Thrown
           end
  | None => Loaded (finishLoad prev initialTasks)
  end.

End WithHelpers.

End App.

Import App.

(** ** [utils/helpers]: the helpers that [App.tsx] imports *)

Module Helpers.

Section ROI.

(** The scale constant of the product (1 for revenue per hour). *)
Variable scale : number.

(** Modelled from the spec: [calculateROI] of [utils/helpers], which is not
    among the sources.  The spec gives 0 for [timeTaken = 0] and
    [revenue / timeTaken] times the scale constant otherwise. *)
Definition calculateROI (revenue timeTaken : number) : number :=
  if isZero timeTaken then zero else mul (div revenue timeTaken) scale.

End ROI.

(** Modelled from the spec: the priority weight that the sort of
    [utils/helpers] compares.  A priority outside [Priority] has no weight in
    [PRIORITY_WEIGHTS]; it is ranked below ['Low'] here. *)
Definition priorityWeight (t : Task) : Z :=
  orDefault (PRIORITY_WEIGHTS (priority t)) 0.

(** Modelled from the spec: the order of the sort of [utils/helpers].  [a]
    does not sort after [b]: a higher weight first, then a later [createdAt]
    first. *)
Definition sortsBefore (a b : Task) : bool :=
  (priorityWeight b <? priorityWeight a) ||
  ((priorityWeight a =? priorityWeight b) && (createdAt b <=? createdAt a)).

Definition before (a b : Task) : Prop := sortsBefore a b = true.

(** [a] and [b] tie: neither sorts strictly before the other. *)
Definition ties (a b : Task) : bool :=
  (priorityWeight a =? priorityWeight b) && (createdAt a =? createdAt b).

(** Modelled from the spec: one step of the stable sort of [utils/helpers].
    [a] goes before the first task it does not sort after. *)
Fixpoint insertTask (a : Task) (l : list Task) : list Task :=
  match l with
  | [] => [a]
  | b :: l' => if sortsBefore a b then a :: l else b :: insertTask a l'
  end.

(** Modelled from the spec: [sortTasks] of [utils/helpers], which is not among
    the sources.  The spec asks for a stable sort by priority weight, High
    before Medium before Low, then by [createdAt] descending; it returns a new
    array. *)
Definition sortTasks (l : list Task) : list Task :=
  fold_right insertTask [] l.

Section CsvExport.

(** [String(n)] for a number [n]. *)
Variable numberToString : number -> string.

(** Modelled from the spec: the escaping of quotes in an exported field. *)
Fixpoint doubleQuotes (s : string) : string :=
  match s with
  | EmptyString => EmptyString
  | String c s' =>
      if Ascii.eqb c dquote then String dquote (String dquote (doubleQuotes s'))
      else String c (doubleQuotes s')
  end.

(** Modelled from the spec: an exported field of [exportTasksToCSV].  A field
    that holds a comma or a quote is written between quotes, its quotes
    doubled. *)
Definition csvField (s : string) : string :=
  if hasChar comma s || hasChar dquote s
  then String dquote (doubleQuotes s ++ String dquote EmptyString)%string
  else s.

(** Modelled from the spec: the header line of [exportTasksToCSV], the
    columns of the import. *)
Definition csvHeader : string :=
  "title,revenue,timeTaken,roi,priority,status,notes".

(** Modelled from the spec: the exported line of one task. *)
Definition csvRow (t : Task) : string :=
  join comma
    (map csvField
       [ title t; numberToString (revenue t); numberToString (timeTaken t);
         numberToString (roi t); priority t; status t; notes t ]).

(** Modelled from the spec: the text that [exportTasksToCSV] of
    [utils/helpers] writes, which is not among the sources.  One header line
    in the column layout of the import, then one line per task, the fields
    joined by commas, a field with a comma or a quote escaped. *)
Definition exportTasksToCSV (ts : list Task) : string :=
  join newline (csvHeader :: map csvRow ts).

End CsvExport.

Definition digitChar (d : Z) : ascii := ascii_of_nat (48 + Z.to_nat d).

(** The decimal digits of [n >= 0], most significant first, before [acc]. *)
Fixpoint showDigits (fuel : nat) (n : Z) (acc : string) : string :=
  match fuel with
  | O => acc
  | S fuel' =>
      let acc' := String (digitChar (n mod 10)) acc in
      if n / 10 =? 0 then acc' else showDigits fuel' (n / 10) acc'
  end.

Definition showNatural (n : Z) : string :=
  showDigits (S (Z.to_nat (Z.log2 n))) n EmptyString.

(** The digits of [r / d] after the point, [0 <= r < d], at most [fuel]. *)
Fixpoint showFraction (fuel : nat) (r d : Z) : string :=
  match fuel with
  | O => EmptyString
  | S fuel' =>
      if r =? 0 then EmptyString
      else String (digitChar (10 * r / d)) (showFraction fuel' (10 * r mod d) d)
  end.

(** Modelled from the spec: the number-to-string conversion used when a
    concrete export is computed.  It writes an integer in full and a fraction
    with at most 17 digits after the point; it agrees with [String(n)] on
    integers below 10^21 and on short decimal fractions. *)
Definition showNumber (n : number) : string :=
  match n with
  | NaN => "NaN"
  | Infinity negative => if negative then "-Infinity" else "Infinity"
  | Fin q =>
      let a := Z.abs (Qnum q) in
      let d := Zpos (Qden q) in
      let sign := if Qnum q <? 0 then "-" else "" in
      let whole := showNatural (a / d) in
      let fraction :=
        if a mod d =? 0 then "" else String "." (showFraction 17 (a mod d) d) in
      (sign ++ whole ++ fraction)%string
  end.

End Helpers.

Import Helpers.

(** ** The undo notification and its timer *)

Module UndoTimer.

(** The store state, the time in milliseconds, and the deadline of the
    pending [setTimeout] of the undo effect, if one is pending. *)
Record Runtime : Type := mkRuntime {
  app : AppState;
  clock : Z;
  timer : option Z
}.

(** A state update followed by the effect
    [useEffect(..., [state.isUndoVisible, closeUndoSnackbar])].
    [closeUndoSnackbar] is a [useCallback] without dependencies, the same
    function at every render, so the effect runs again exactly when
    [isUndoVisible] changes: its cleanup clears the old timer, and its body
    sets a timer of 6000 ms when the notification is visible. *)
Definition commit (rt : Runtime) (next : AppState) : Runtime :=
  if Bool.eqb (isUndoVisible (app rt)) (isUndoVisible next)
  then {| app := next; clock := clock rt; timer := timer rt |}
  else {| app := next; clock := clock rt;
          timer := if isUndoVisible next then Some (clock rt + 6000) else None |}.

(** [ms] milliseconds pass without a user event: a timer whose deadline is
    reached calls [closeUndoSnackbar]. *)
Definition wait (ms : Z) (rt : Runtime) : Runtime :=
  let later := clock rt + ms in
  match timer rt with
  | Some deadline =>
      if deadline <=? later then
        let fired :=
          commit {| app := app rt; clock := deadline; timer := None |}
                 (closeUndoSnackbar (app rt)) in
        {| app := app fired; clock := later; timer := timer fired |}
      else {| app := app rt; clock := later; timer := timer rt |}
  | None => {| app := app rt; clock := later; timer := None |}
  end.

Inductive Event : Type :=
| Delete (task : Task)
| Undo
| Dismiss
| Wait (ms : Z).

Definition step (rt : Runtime) (e : Event) : Runtime :=
  match e with
  | Delete task => commit rt (deleteTask (app rt) task)
  | Undo => commit rt (undoDelete (app rt))
  | Dismiss => commit rt (closeUndoSnackbar (app rt))
  | Wait ms => wait ms rt
  end.

Definition run (rt : Runtime) (events : list Event) : Runtime :=
  fold_left step events rt.

(** The runtime once the load has finished with the tasks [ts]. *)
Definition start (ts : list Task) : Runtime :=
  {| app := {| tasks := ts; lastDeletedTask := None;
               isUndoVisible := false; isLoading := false |};
     clock := 0;
     timer := None |}.

(** The timer is pending exactly while the notification is visible. *)
Definition timerMatches (rt : Runtime) : Prop :=
  timer rt = None <-> isUndoVisible (app rt) = false.

(** The time at which the pending task of a visible notification has been
    pending for its full 6000 ms: 6000 ms after the last [Delete]. *)
Definition ownDeadline (deletedAt : Z) : Z := deletedAt + 6000.

End UndoTimer.

Import UndoTimer.

(** ** Vocabulary of the statements about the CSV codec *)

Module Csv.

(** The import keeps a line: it is not blank and has at least 6 fields. *)
Definition accepted (rawLine : string) : bool :=
  let line := trim rawLine in
  negb (isEmpty line) && (6 <=? List.length (split comma line))%nat.

(** The task [t] holds what the import reads from the fields of [rawLine]. *)
Definition parsedFrom (calculateROI : number -> number -> number)
    (rawLine : string) (t : Task) : Prop :=
  let parts := split comma (trim rawLine) in
  title t = removeAll dquote (nth 0 parts "") /\
  revenue t = orElse (parseFloat (nth 1 parts "")) zero /\
  timeTaken t = orElse (parseFloat (nth 2 parts "")) zero /\
  roi t = calculateROI (revenue t) (timeTaken t) /\
  priority t = strOr (nth 4 parts "") "Low" /\
  status t = strOr (nth 5 parts "") "Pending" /\
  notes t = removeAll dquote (nth 6 parts "").

(** The fields that the round trip compares. *)
Definition sameFields (a b : Task) : Prop :=
  title a = title b /\ revenue a = revenue b /\ timeTaken a = timeTaken b /\
  priority a = priority b /\ status a = status b.

(** No comma, no quote and no line break. *)
Definition plain (s : string) : bool :=
  negb (hasChar comma s) && negb (hasChar dquote s) && negb (hasChar newline s).

(** [String(n)] is plain and [parseFloat] reads it back as [n]. *)
Definition readsBack (numberToString : number -> string) (n : number) : Prop :=
  plain (numberToString n) = true /\
  orElse (parseFloat (numberToString n)) zero = n.

(** A task that the import can read back from its exported line: the title
    is plain and starts with no white space; the texts of revenue and
    timeTaken are plain and read back; the text of roi, a column the import
    skips, has no comma and no line break; priority and status are values of
    their types; the notes have no line break. *)
Definition exportable (numberToString : number -> string) (t : Task) : Prop :=
  plain (title t) = true /\
  trimStart (title t) = title t /\
  readsBack numberToString (revenue t) /\
  readsBack numberToString (timeTaken t) /\
  (hasChar comma (numberToString (roi t)) = false /\
   hasChar newline (numberToString (roi t)) = false) /\
  isPriority (priority t) = true /\
  isStatus (status t) = true /\
  hasChar newline (notes t) = false.

End Csv.

Import Csv.

(** ** Concrete data used by the examples *)

Module Samples.

Definition sampleId (n : nat) : string := ("id-" ++ showNatural (Z.of_nat n))%string.
Definition sampleNow (_ : nat) : Z := 1700000000000.
Definition unitScale : number := ofZ 1.

Definition taskA : Task :=
  mkTask "a" "A" (ofZ 100) (ofZ 4) (ofZ 25) "Low" "Pending" "" 1000.
Definition taskB : Task :=
  mkTask "b" "B" (ofZ 300) (ofZ 2) (ofZ 150) "High" "Completed" "second" 2000.
Definition taskC : Task :=
  mkTask "c" "C" (ofZ 0) (ofZ 0) (ofZ 0) "Medium" "In Progress" "" 3000.

Definition hidden (ts : list Task) : AppState :=
  mkState ts None false false.

(** A file with a header, two rows of seven fields and one row of three. *)
Definition sampleCSV : string :=
  join newline
    [ "title,revenue,timeTaken,roi,priority,status,notes";
      "Write report,1200,8,150,High,Pending,first";
      "short,1,2";
      String dquote ("Call client" ++ String dquote ",abc,0.5,,Low,Completed,")%string ].

(** The dialog open on [t] in edit mode. *)
Definition editing (t : Task) : DialogConfig := mkDialog true edit (Some t).

(** [{ title: 'A2', status: 'Completed' }]. *)
Definition retitle : PartialTask :=
  mkPartial None (Some "A2") None None None None (Some "Completed") None None.

(** [{ id: 'z', createdAt: 0 }]. *)
Definition reidentify : PartialTask :=
  mkPartial (Some "z") None None None None None None None (Some 0).

(** The stored text of an array with one object that has an [id] only:
    an opening bracket and brace, the key [id] and the string [a], each
    between quotes with a colon in between, and the closing brace and
    bracket. *)
Definition partialBlob : string :=
  ("[{" ++ String dquote ("id" ++ String dquote (":" ++ String dquote ("a" ++
   String dquote "}]"))))%string.

(** A stand-in for [JSON.parse] on the stored texts of the examples.  It
    reads the empty array, [null] and [partialBlob] as [JSON.parse] does;
    every other text it rejects, as [JSON.parse] rejects the empty text
    and the text of an opening bracket and brace. *)
Definition sampleParse (s : string) : option Json :=
  if String.eqb s "[]" then Some (JArray [])
  else if String.eqb s "null" then Some JNull
  else if String.eqb s partialBlob then Some (JArray [JObject [("id", JString "a")]])
  else None.

(** A task whose title holds a comma. *)
Definition taskComma : Task :=
  mkTask "k" "a,b" (ofZ 1) (ofZ 2) (Fin (1 # 2)) "High" "Pending" "" 5000.

End Samples.

Import Samples.

(** ** [App.tsx]: adding a task, the dialog, persistence, the mount guard *)

Module Ui.

(** [data.k || d] for a string key: an absent key reads [undefined], which is
    falsy like the empty string. *)
Definition optStrOr (o : option string) (d : string) : string :=
  strOr (orDefault o "") d.

(** [data.k || d] for a numeric key: an absent key reads [undefined], which is
    falsy like [NaN] and zero. *)
Definition optNumOr (o : option number) (d : number) : number :=
  orElse (orDefault o NaN) d.

(** [result] is the string of the partial when it has one that is not empty,
    and the default [d] when the key is absent or holds the empty string. *)
Definition strKeptOr (o : option string) (d result : string) : Prop :=
  (forall s, o = Some s -> s <> "" -> result = s) /\
  (o = None \/ o = Some "" -> result = d).

(** [result] is the number of the partial when it has one that is truthy, and
    zero when the key is absent or holds [NaN] or a zero. *)
Definition numKeptOr (o : option number) (result : number) : Prop :=
  (forall n, o = Some n -> truthy n = true -> result = n) /\
  (o = None \/ (exists n, o = Some n /\ truthy n = false) -> result = zero).

(** The object [newTask] of [addTask]; [newId] and [now] are what
    [generateId()] and [Date.now()] return in this call. *)
Definition newTaskOf (newId : string) (now : Z) (data : PartialTask) : Task :=
  {| id := newId;
     createdAt := now;
     title := optStrOr (p_title data) "New Task";
     revenue := optNumOr (p_revenue data) zero;
     timeTaken := optNumOr (p_timeTaken data) zero;
     roi := optNumOr (p_roi data) zero;
     priority := optStrOr (p_priority data) "Low";
     status := optStrOr (p_status data) "Pending";
     notes := optStrOr (p_notes data) "" |}.

(** [addTask]: the new store state and the new dialog state. *)
Definition addTask (newId : string) (now : Z) (st : AppState)
    (dialogConfig : DialogConfig) (data : PartialTask) : AppState * DialogConfig :=
  let newTask := newTaskOf newId now data in
  (setTasks st (newTask :: tasks st),
   {| isOpen := false; type := type dialogConfig;
      selectedTask := selectedTask dialogConfig |}).

(** The [onSubmit] of the dialog:
    [dialogConfig.type === 'add' ? addTask : updateTask]. *)
Definition onSubmit (newId : string) (now : Z) (st : AppState)
    (dialogConfig : DialogConfig) (data : PartialTask) : AppState * DialogConfig :=
  match type dialogConfig with
  | add => addTask newId now st dialogConfig data
  | _ => updateTask st dialogConfig data
  end.

(** The [onClose] of the dialog. *)
Definition onClose (dialogConfig : DialogConfig) : DialogConfig :=
  {| isOpen := false; type := type dialogConfig; selectedTask := None |}.

(** What the user does with the dialog: the New Task button, the [onView]
    and [onEdit] of a card, closing, and submitting [data] (with the id and
    the time that an [addTask] would draw). *)
Inductive UiEvent : Type :=
| OpenAdd
| OpenView (t : Task)
| OpenEdit (t : Task)
| CloseDialog
| Submit (data : PartialTask) (newId : string) (now : Z).

Definition uiStep (s : AppState * DialogConfig) (e : UiEvent)
    : AppState * DialogConfig :=
  let '(st, dialogConfig) := s in
  match e with
  | OpenAdd => (st, {| isOpen := true; type := add; selectedTask := None |})
  | OpenView t => (st, {| isOpen := true; type := view; selectedTask := Some t |})
  | OpenEdit t => (st, {| isOpen := true; type := edit; selectedTask := Some t |})
  | CloseDialog => (st, onClose dialogConfig)
  | Submit data newId now => onSubmit newId now st dialogConfig data
  end.

Definition uiRun (s : AppState * DialogConfig) (events : list UiEvent)
    : AppState * DialogConfig :=
  fold_left uiStep events s.

(** The initial value of [dialogConfig]. *)
Definition initialDialog : DialogConfig :=
  {| isOpen := false; type := add; selectedTask := None |}.

(** No task is selected exactly when the dialog is closed or in add mode. *)
Definition dialogConsistent (dialogConfig : DialogConfig) : Prop :=
  selectedTask dialogConfig = None <->
  (isOpen dialogConfig = false \/ type dialogConfig = add).

(** The effect [useEffect(..., [state.tasks, state.isLoading])] on the stored
    text ([None]: the key is absent): unless the state is loading, it stores
    the text of the tasks.  It runs after every render in which one of its
    two dependencies changed; when neither did, the stored text already is
    the text of these tasks. *)
Definition persist (JSON_stringify : list Task -> string)
    (st : AppState) (storage : option string) : option string :=
  if isLoading st then storage else Some (JSON_stringify (tasks st)).

(** One run of the mount effect, from the value of [isFetched.current]: the
    value it leaves, and how many [setTimeout(loadTasks, 600)] it makes. *)
Definition mountEffect (isFetched : bool) : bool * nat :=
  if isFetched then (true, 0%nat) else (true, 1%nat).

(** [n] runs of the mount effect in a row. *)
Fixpoint mountEffects (n : nat) (isFetched : bool) : bool * nat :=
  match n with
  | O => (isFetched, 0%nat)
  | S n' =>
      let '(fetched, scheduled) := mountEffect isFetched in
      let '(fetched', scheduled') := mountEffects n' fetched in
      (fetched', (scheduled + scheduled')%nat)
  end.

(** The notification is visible exactly when a deleted task is pending. *)
Definition slotMatches (st : AppState) : Prop :=
  isUndoVisible st = true <-> lastDeletedTask st <> None.

(** Every [Wait] of the events lasts a time that is not negative. *)
Definition forwardInTime (events : list Event) : Prop :=
  Forall (fun e => match e with Wait ms => 0 <= ms | _ => True end) events.

(** A pending timer is due in the future, at most 6000 ms from now. *)
Definition deadlineInRange (rt : Runtime) : Prop :=
  forall deadline, timer rt = Some deadline ->
    clock rt < deadline <= clock rt + 6000.

(** A stand-in for [JSON.stringify] that writes the empty array only. *)
Definition sampleStringify (ts : list Task) : string :=
  match ts with [] => "[]" | _ :: _ => "[?]" end.

(** A line ending of a file written on Windows. *)
Definition carriageReturn : ascii := "013"%char.

End Ui.

Import Ui.

(** * Properties *)

(** ** The built-ins on sample values *)

Example parseFloat_int : parseFloat "15000" = ofZ 15000.
Proof. reflexivity. Qed.

Example parseFloat_prefix : parseFloat " 12.5abc" = Fin (25 # 2).
Proof. reflexivity. Qed.

Example parseFloat_exponent : parseFloat "-1.5e3" = ofZ (-1500).
Proof. reflexivity. Qed.

Example parseFloat_small : parseFloat "25e-1x" = Fin (5 # 2).
Proof. reflexivity. Qed.

Example parseFloat_junk : parseFloat "abc" = NaN /\ parseFloat "" = NaN.
Proof. split; reflexivity. Qed.

Example parseFloat_dot : parseFloat ".e5" = NaN /\ parseFloat "1.e2x" = ofZ 100.
Proof. split; reflexivity. Qed.

Example parseFloat_infinity : parseFloat "-Infinity" = Infinity true.
Proof. reflexivity. Qed.

Example orElse_examples :
  orElse NaN zero = zero /\ orElse (Fin (0 # 3)) zero = zero /\
  orElse (ofZ 7) zero = ofZ 7.
Proof. repeat split. Qed.

Example split_example : split comma "a,,b," = ["a"; ""; "b"; ""].
Proof. reflexivity. Qed.

Example split_empty : split comma "" = [""].
Proof. reflexivity. Qed.

Example trim_example : trim (String "009" "  a b  ") = "a b".
Proof. reflexivity. Qed.

Example toLowerCase_example : toLowerCase "Sales Deck 1" = "sales deck 1".
Proof. reflexivity. Qed.

Example includes_example :
  includes "sales deck" "s d" = true /\ includes "sales deck" "x" = false.
Proof. split; reflexivity. Qed.

Example showNumber_examples :
  showNumber (ofZ 15000) = "15000" /\ showNumber (Fin (-25 # 2)) = "-12.5" /\
  showNumber zero = "0".
Proof. repeat split. Qed.

(** ** Strings *)

Section StringFacts.

Lemma prefix_spec (p s : string) :
  String.prefix p s = true <-> exists post, s = (p ++ post)%string.
Proof.
  revert s; induction p as [|c p IH]; intros s.
  - split; [intros _; now exists s | intros _; now destruct s].
  - destruct s as [|d s]; simpl.
    + split; [discriminate | intros [post H]; discriminate].
    + destruct (ascii_dec c d) as [->|Hne].
      * rewrite IH. split; intros [post H]; exists post.
        -- now rewrite H.
        -- now injection H.
      * split; [discriminate | intros [post H]; injection H; congruence].
Qed.

(** [includes] finds exactly the occurrences of [sub] inside [s]. *)
Lemma includes_spec (s sub : string) :
  includes s sub = true <-> exists pre post, s = (pre ++ sub ++ post)%string.
Proof.
  induction s as [|c s IH].
  - cbn [includes]. rewrite orb_false_r, prefix_spec. split.
    + intros [post H]. now exists EmptyString, post.
    + intros [pre [post H]]. destruct pre; [now exists post | discriminate].
  - cbn [includes]. rewrite orb_true_iff, prefix_spec, IH. split.
    + intros [[post H] | [pre [post H]]].
      * now exists EmptyString, post.
      * exists (String c pre), post. simpl. now rewrite H.
    + intros [pre [post H]]. destruct pre as [|d pre].
      * left. now exists post.
      * right. exists pre, post. simpl in H. now injection H.
Qed.

Lemma includes_empty (s : string) : includes s "" = true.
Proof. destruct s; reflexivity. Qed.

Lemma hasChar_append (c : ascii) (s t : string) :
  hasChar c (s ++ t)%string = hasChar c s || hasChar c t.
Proof.
  induction s as [|d s IH]; simpl; [reflexivity|].
  now rewrite IH, orb_assoc.
Qed.

Lemma split_not_nil (sep : ascii) (s : string) : split sep s <> [].
Proof.
  destruct s as [|c s]; simpl; [discriminate|].
  destruct (Ascii.eqb c sep); [discriminate|].
  destruct (split sep s); discriminate.
Qed.

(** A string without the separator is one field. *)
Lemma split_no_sep (sep : ascii) (s : string) :
  hasChar sep s = false -> split sep s = [s].
Proof.
  induction s as [|c s IH]; simpl; [reflexivity|].
  intros H. apply orb_false_iff in H as [Hc Hs].
  rewrite Hc, (IH Hs). reflexivity.
Qed.

(** The first separator ends the first field. *)
Lemma split_append_sep (sep : ascii) (s t : string) :
  hasChar sep s = false ->
  split sep (s ++ String sep t)%string = s :: split sep t.
Proof.
  induction s as [|c s IH]; simpl.
  - intros _. now rewrite Ascii.eqb_refl.
  - intros H. apply orb_false_iff in H as [Hc Hs].
    rewrite Hc, (IH Hs). reflexivity.
Qed.

(** Splitting undoes joining when no field holds the separator. *)
Lemma split_join (sep : ascii) (l : list string) :
  l <> [] ->
  Forall (fun s => hasChar sep s = false) l ->
  split sep (join sep l) = l.
Proof.
  induction l as [|s l IH]; [congruence|].
  intros _ Hall. inversion Hall as [|? ? Hs Hl]; subst.
  destruct l as [|s' l].
  - simpl. now apply split_no_sep.
  - change (join sep (s :: s' :: l))
      with (s ++ String sep (join sep (s' :: l)))%string.
    rewrite split_append_sep by assumption.
    rewrite IH; [reflexivity | discriminate | assumption].
Qed.

Lemma hasChar_join (c sep : ascii) (l : list string) :
  Ascii.eqb sep c = false ->
  Forall (fun s => hasChar c s = false) l ->
  hasChar c (join sep l) = false.
Proof.
  intros Hsep. induction l as [|s l IH]; intros Hall; [reflexivity|].
  inversion Hall as [|? ? Hs Hl]; subst.
  destruct l as [|s' l]; [exact Hs|].
  change (join sep (s :: s' :: l))
    with (s ++ String sep (join sep (s' :: l)))%string.
  rewrite hasChar_append, Hs. simpl hasChar at 1.
  cbn [hasChar]. rewrite Hsep. simpl. now apply IH.
Qed.

Lemma removeAll_absent (c : ascii) (s : string) :
  hasChar c s = false -> removeAll c s = s.
Proof.
  induction s as [|d s IH]; simpl; [reflexivity|].
  intros H. apply orb_false_iff in H as [Hd Hs].
  now rewrite Hd, (IH Hs).
Qed.

Lemma removeAll_append (c : ascii) (s t : string) :
  removeAll c (s ++ t)%string = (removeAll c s ++ removeAll c t)%string.
Proof.
  induction s as [|d s IH]; simpl; [reflexivity|].
  destruct (Ascii.eqb d c); simpl; now rewrite IH.
Qed.

(** Quotes around a string without quotes are stripped. *)
Lemma removeAll_surrounding (s : string) :
  hasChar dquote s = false ->
  removeAll dquote (String dquote (s ++ String dquote ""))%string = s.
Proof.
  intros H. cbn [removeAll]. rewrite Ascii.eqb_refl, removeAll_append.
  rewrite (removeAll_absent _ _ H). simpl. clear H.
  induction s; simpl; [reflexivity | now f_equal].
Qed.

(** [trimEnd] stops at the last character that is not white space. *)
Lemma trimEnd_append (s t : string) (c : ascii) :
  isWhiteSpace c = false ->
  trimEnd (s ++ String c t)%string = (s ++ String c (trimEnd t))%string.
Proof.
  intros Hc. induction s as [|d s IH].
  - simpl. rewrite Hc, andb_false_r. reflexivity.
  - simpl. rewrite IH.
    destruct s; simpl; reflexivity.
Qed.

End StringFacts.

(** ** The store: update, delete, undo *)

Section Store.

Lemma spread_fields (t : Task) (data : PartialTask) :
  id (spread t data) = orDefault (p_id data) (id t) /\
  title (spread t data) = orDefault (p_title data) (title t) /\
  revenue (spread t data) = orDefault (p_revenue data) (revenue t) /\
  timeTaken (spread t data) = orDefault (p_timeTaken data) (timeTaken t) /\
  roi (spread t data) = orDefault (p_roi data) (roi t) /\
  priority (spread t data) = orDefault (p_priority data) (priority t) /\
  status (spread t data) = orDefault (p_status data) (status t) /\
  notes (spread t data) = orDefault (p_notes data) (notes t) /\
  createdAt (spread t data) = orDefault (p_createdAt data) (createdAt t).
Proof. repeat split. Qed.

(** A partial without keys changes nothing. *)
Lemma spread_empty (t : Task) :
  spread t (mkPartial None None None None None None None None None) = t.
Proof. now destruct t. Qed.

Lemma Forall2_map_r {A B : Type} (R : A -> B -> Prop) (f : A -> B) (l : list A) :
  (forall a, In a l -> R a (f a)) -> Forall2 R l (map f l).
Proof.
  induction l as [|a l IH]; intros H; simpl; constructor.
  - apply H. now left.
  - apply IH. intros b Hb. apply H. now right.
Qed.

(** What [updateTask] does to every task of the collection, position by
    position. *)
Lemma updateTask_pointwise (st : AppState) (dialogConfig : DialogConfig)
    (data : PartialTask) (sel : Task) :
  selectedTask dialogConfig = Some sel ->
  Forall2 (fun t t' => (id t = id sel -> t' = spread t data) /\
                       (id t <> id sel -> t' = t))
          (tasks st) (tasks (fst (updateTask st dialogConfig data))).
Proof.
  intros Hsel. unfold updateTask. rewrite Hsel. cbn [fst setTasks tasks].
  apply Forall2_map_r. intros t _.
  destruct (String.eqb_spec (id t) (id sel)) as [Heq|Hne]; split; congruence.
Qed.

(** C1, as the spec words it, fails: a partial that carries [id] and
    [createdAt] replaces those of the matched task. *)
Lemma updateTask_overwrites_id :
  ~ Forall2 (fun t t' => id t' = id t /\ createdAt t' = createdAt t)
      (tasks (hidden [taskA; taskB]))
      (tasks (fst (updateTask (hidden [taskA; taskB]) (editing taskA) reidentify))).
Proof.
  intros H. inversion H as [|? ? ? ? [Hid _] _]; subst. discriminate Hid.
Qed.

(** C1 (amended): without a selected task [updateTask] changes nothing; with
    one, each task whose id is the selected task's becomes the spread of the
    partial over it, every other task stays as it is, the rest of the state
    is untouched, and the [id] and the [createdAt] of every task are kept
    whenever the partial carries no [id], respectively no [createdAt]. *)
Theorem updateTask_merges_partial (st : AppState) (dialogConfig : DialogConfig)
    (data : PartialTask) :
  (selectedTask dialogConfig = None ->
   updateTask st dialogConfig data = (st, dialogConfig)) /\
  (forall sel, selectedTask dialogConfig = Some sel ->
     let st' := fst (updateTask st dialogConfig data) in
     Forall2 (fun t t' => (id t = id sel -> t' = spread t data) /\
                          (id t <> id sel -> t' = t))
             (tasks st) (tasks st') /\
     lastDeletedTask st' = lastDeletedTask st /\
     isUndoVisible st' = isUndoVisible st /\
     isLoading st' = isLoading st /\
     (p_id data = None -> map id (tasks st') = map id (tasks st)) /\
     (p_createdAt data = None ->
      map createdAt (tasks st') = map createdAt (tasks st))).
Proof.
  split.
  - intros Hnone. unfold updateTask. now rewrite Hnone.
  - intros sel Hsel st'. split; [now apply updateTask_pointwise|].
    subst st'. unfold updateTask. rewrite Hsel. cbn [fst setTasks tasks
      lastDeletedTask isUndoVisible isLoading].
    repeat split.
    + intros Hid. rewrite map_map. apply map_ext. intros t.
      destruct (String.eqb (id t) (id sel)); [|reflexivity].
      cbn [spread id]. now rewrite Hid.
    + intros Hat. rewrite map_map. apply map_ext. intros t.
      destruct (String.eqb (id t) (id sel)); [|reflexivity].
      cbn [spread createdAt]. now rewrite Hat.
Qed.

Lemma updateTask_merges_partial_witness :
  selectedTask (editing taskA) = Some taskA /\
  p_id retitle = None /\
  p_createdAt retitle = None /\
  tasks (fst (updateTask (hidden [taskA; taskB]) (editing taskA) retitle)) =
    [spread taskA retitle; taskB] /\
  map id (tasks (fst (updateTask (hidden [taskA; taskB]) (editing taskA) retitle))) =
    map id (tasks (hidden [taskA; taskB])).
Proof.
  do 4 (split; [reflexivity|]).
  pose proof (proj2 (updateTask_merges_partial (hidden [taskA; taskB])
                       (editing taskA) retitle) taskA eq_refl)
    as [_ [_ [_ [_ [Hid _]]]]].
  exact (Hid eq_refl).
Defined.

(** C3: deleting a task of the collection and undoing at once gives a
    collection that holds that very task, all fields and the id included: the
    other tasks in their order, then the task; the slot is empty and the
    notification hidden.  With an empty slot [undoDelete] changes nothing. *)
Theorem delete_then_undo_restores (st : AppState) (task : Task) :
  In task (tasks st) ->
  let st' := undoDelete (deleteTask st task) in
  In task (tasks st') /\
  tasks st' =
    filter (fun t => negb (String.eqb (id t) (id task))) (tasks st) ++ [task] /\
  lastDeletedTask st' = None /\
  isUndoVisible st' = false /\
  (lastDeletedTask st = None -> undoDelete st = st).
Proof.
  intros _ st'. subst st'. unfold undoDelete, deleteTask; cbn.
  repeat split.
  - apply in_or_app. right. now left.
  - intros Hnone. now rewrite Hnone.
Qed.

Lemma delete_then_undo_restores_witness :
  In taskB (tasks (hidden [taskA; taskB; taskC])) /\
  lastDeletedTask (hidden [taskA; taskB; taskC]) = None /\
  In taskB (tasks (undoDelete (deleteTask (hidden [taskA; taskB; taskC]) taskB))) /\
  undoDelete (hidden [taskA; taskB; taskC]) = hidden [taskA; taskB; taskC].
Proof.
  assert (Hin : In taskB (tasks (hidden [taskA; taskB; taskC])))
    by (right; left; reflexivity).
  pose proof (delete_then_undo_restores (hidden [taskA; taskB; taskC]) taskB Hin)
    as [Hback [_ [_ [_ Hnoop]]]].
  split; [exact Hin|]. split; [reflexivity|].
  split; [exact Hback | exact (Hnoop eq_refl)].
Defined.

Lemma filter_all_true {A : Type} (f : A -> bool) (l : list A) :
  (forall a, In a l -> f a = true) -> filter f l = l.
Proof.
  induction l as [|a l IH]; intros H; simpl; [reflexivity|].
  rewrite (H a (or_introl eq_refl)). f_equal. apply IH.
  intros b Hb. apply H. now right.
Qed.

(** With ids that are unique, delete then undo gives back the collection up
    to the order of its tasks. *)
Lemma delete_then_undo_permutes (st : AppState) (task : Task) :
  In task (tasks st) -> NoDup (map id (tasks st)) ->
  Permutation (tasks st) (tasks (undoDelete (deleteTask st task))).
Proof.
  intros Hin Hnodup. cbn.
  apply in_split in Hin as [l1 [l2 Heq]]. rewrite Heq in *.
  rewrite map_app in Hnodup. cbn [map] in Hnodup.
  apply NoDup_remove_2 in Hnodup. rewrite <- map_app in Hnodup.
  assert (Hkeep : forall l, (forall t, In t l -> In t (l1 ++ l2)) ->
            filter (fun t => negb (String.eqb (id t) (id task))) l = l).
  { intros l Hl. apply filter_all_true. intros t Ht.
    destruct (String.eqb_spec (id t) (id task)) as [Heq'|]; [|reflexivity].
    exfalso. apply Hnodup. rewrite <- Heq'. apply in_map. now apply Hl. }
  rewrite filter_app. cbn [filter]. rewrite String.eqb_refl. cbn [negb].
  rewrite (Hkeep l1), (Hkeep l2).
  - rewrite <- app_assoc. apply Permutation_app_head.
    change (task :: l2) with ([task] ++ l2). apply Permutation_app_comm.
  - intros t Ht. apply in_or_app. now right.
  - intros t Ht. apply in_or_app. now left.
Qed.

(** Undo puts the task back at the end of the collection, not at the place
    it was deleted from. *)
Example undo_appends_at_the_end :
  tasks (undoDelete (deleteTask (hidden [taskA; taskB; taskC]) taskA)) =
  [taskB; taskC; taskA].
Proof. reflexivity. Qed.

(** C10: deleting a task whose id the collection does not hold leaves the
    collection as it is, yet stores the task in the slot and shows the
    notification; the undo that follows appends the task, which had never
    been in the collection. *)
Theorem delete_absent_then_undo_appends (st : AppState) (task : Task) :
  ~ In (id task) (map id (tasks st)) ->
  tasks (deleteTask st task) = tasks st /\
  lastDeletedTask (deleteTask st task) = Some task /\
  isUndoVisible (deleteTask st task) = true /\
  tasks (undoDelete (deleteTask st task)) = tasks st ++ [task] /\
  ~ In task (tasks st).
Proof.
  intros Habsent.
  assert (Hsame : tasks (deleteTask st task) = tasks st).
  { cbn. apply filter_all_true. intros t Ht.
    destruct (String.eqb_spec (id t) (id task)) as [Heq|]; [|reflexivity].
    exfalso. apply Habsent. rewrite <- Heq. now apply in_map. }
  repeat split; try assumption.
  - unfold undoDelete. cbn [lastDeletedTask deleteTask tasks]. f_equal.
    exact Hsame.
  - intros Hin. apply Habsent. now apply in_map.
Qed.

Lemma delete_absent_then_undo_appends_witness :
  ~ In (id taskC) (map id (tasks (hidden [taskA; taskB]))) /\
  tasks (undoDelete (deleteTask (hidden [taskA; taskB]) taskC)) =
    [taskA; taskB; taskC].
Proof.
  assert (Habsent : ~ In (id taskC) (map id (tasks (hidden [taskA; taskB])))).
  { cbn. intros [H | [H | []]]; discriminate H. }
  split; [exact Habsent|].
  exact (proj1 (proj2 (proj2 (proj2
    (delete_absent_then_undo_appends (hidden [taskA; taskB]) taskC Habsent))))).
Defined.

End Store.

(** ** The sort of the view *)

Section Sorting.

Lemma sortsBefore_spec (a b : Task) :
  sortsBefore a b = true <->
  priorityWeight b < priorityWeight a \/
  (priorityWeight a = priorityWeight b /\ createdAt b <= createdAt a).
Proof.
  unfold sortsBefore.
  rewrite orb_true_iff, andb_true_iff, Z.ltb_lt, Z.eqb_eq, Z.leb_le.
  reflexivity.
Qed.

Lemma sortsBefore_total (a b : Task) :
  sortsBefore a b = false -> sortsBefore b a = true.
Proof.
  intros H. apply sortsBefore_spec.
  apply not_true_iff_false in H. rewrite sortsBefore_spec in H. lia.
Qed.

Lemma before_trans (a b c : Task) : before a b -> before b c -> before a c.
Proof. unfold before. rewrite !sortsBefore_spec. lia. Qed.

Lemma ties_spec (a b : Task) :
  ties a b = true <-> sortsBefore a b = true /\ sortsBefore b a = true.
Proof.
  unfold ties. rewrite andb_true_iff, Z.eqb_eq, Z.eqb_eq, !sortsBefore_spec. lia.
Qed.

Lemma insertTask_perm (a : Task) (l : list Task) :
  Permutation (a :: l) (insertTask a l).
Proof.
  induction l as [|b l IH]; simpl; [reflexivity|].
  destruct (sortsBefore a b); [reflexivity|].
  rewrite perm_swap. now constructor.
Qed.

Lemma sortTasks_perm (l : list Task) : Permutation l (sortTasks l).
Proof.
  induction l as [|a l IH]; simpl; [constructor|].
  rewrite <- insertTask_perm. now constructor.
Qed.

Lemma insertTask_HdRel (a b : Task) (l : list Task) :
  before b a -> HdRel before b l -> HdRel before b (insertTask a l).
Proof.
  intros Hba Hl. destruct l as [|c l]; simpl; [now constructor|].
  destruct (sortsBefore a c); constructor; [assumption|].
  now inversion Hl.
Qed.

Lemma insertTask_sorted (a : Task) (l : list Task) :
  Sorted before l -> Sorted before (insertTask a l).
Proof.
  induction l as [|b l IH]; intros Hs; simpl.
  - repeat constructor.
  - inversion Hs as [|? ? Hl Hb]; subst.
    destruct (sortsBefore a b) eqn:Hab.
    + constructor; [assumption | now constructor].
    + constructor; [now apply IH|].
      apply insertTask_HdRel; [|assumption].
      now apply sortsBefore_total.
Qed.

Lemma sortTasks_sorted (l : list Task) : Sorted before (sortTasks l).
Proof.
  induction l as [|a l IH]; simpl; [constructor | now apply insertTask_sorted].
Qed.

(** A sorted list is returned as it is. *)
Lemma sortTasks_fixes_sorted (l : list Task) :
  Sorted before l -> sortTasks l = l.
Proof.
  induction l as [|a l IH]; intros Hs; simpl; [reflexivity|].
  inversion Hs as [|? ? Hl Ha]; subst. rewrite (IH Hl).
  destruct Ha as [|b l' Hab]; simpl; [reflexivity|].
  unfold before in Hab. now rewrite Hab.
Qed.

(** The tasks of a class whose members never sort strictly one after another
    keep their input order. *)
Lemma insertTask_filter (P : Task -> bool) (a : Task) (l : list Task) :
  (forall x y, P x = true -> P y = true -> sortsBefore x y = true) ->
  filter P (insertTask a l) = filter P (a :: l).
Proof.
  intros Hclass. induction l as [|b l IH]; [reflexivity|].
  cbn [insertTask]. destruct (sortsBefore a b) eqn:Hab; [reflexivity|].
  cbn [filter] in *. rewrite IH.
  destruct (P a) eqn:Pa, (P b) eqn:Pb; try reflexivity.
  rewrite (Hclass a b Pa Pb) in Hab. discriminate.
Qed.

Lemma sortTasks_filter (P : Task -> bool) (l : list Task) :
  (forall x y, P x = true -> P y = true -> sortsBefore x y = true) ->
  filter P (sortTasks l) = filter P l.
Proof.
  intros Hclass. induction l as [|a l IH]; [reflexivity|].
  cbn [sortTasks fold_right]. rewrite insertTask_filter by assumption.
  cbn [filter]. fold (sortTasks l). now rewrite IH.
Qed.

(** C7: [sortTasks] returns the tasks it is given, ordered by priority weight
    (High 3, Medium 2, Low 1, the higher first) and, at equal weight, by
    [createdAt] descending; the tasks of one priority and one [createdAt]
    come out in the order they came in; sorting again changes nothing. *)
Theorem sortTasks_is_stable (l : list Task) :
  Permutation l (sortTasks l) /\
  StronglySorted (fun a b => sortsBefore a b = true) (sortTasks l) /\
  (forall a b, sortsBefore a b = true <->
     priorityWeight b < priorityWeight a \/
     (priorityWeight a = priorityWeight b /\ createdAt b <= createdAt a)) /\
  (PRIORITY_WEIGHTS "High" = Some 3 /\ PRIORITY_WEIGHTS "Medium" = Some 2 /\
   PRIORITY_WEIGHTS "Low" = Some 1) /\
  (forall p c,
     filter (fun t => String.eqb (priority t) p && (createdAt t =? c)) (sortTasks l) =
     filter (fun t => String.eqb (priority t) p && (createdAt t =? c)) l) /\
  sortTasks (sortTasks l) = sortTasks l.
Proof.
  split; [apply sortTasks_perm|].
  split.
  { apply Sorted_StronglySorted; [|apply sortTasks_sorted].
    intros a b c. apply before_trans. }
  split; [apply sortsBefore_spec|].
  split; [repeat split|].
  split.
  - intros p c. apply sortTasks_filter. intros x y Hx Hy.
    apply andb_true_iff in Hx as [Hxp Hxc], Hy as [Hyp Hyc].
    apply String.eqb_eq in Hxp, Hyp. apply Z.eqb_eq in Hxc, Hyc.
    apply sortsBefore_spec. right. unfold priorityWeight.
    rewrite Hxp, Hyp. lia.
  - apply sortTasks_fixes_sorted, sortTasks_sorted.
Qed.

(** Stability for the ties of the order itself: tasks of equal weight and
    equal [createdAt], whatever their priority strings. *)
Lemma sortTasks_keeps_ties (x : Task) (l : list Task) :
  filter (ties x) (sortTasks l) = filter (ties x) l.
Proof.
  apply sortTasks_filter. intros a b Ha Hb.
  unfold ties in Ha, Hb.
  apply andb_true_iff in Ha as [Ha1 Ha2], Hb as [Hb1 Hb2].
  apply Z.eqb_eq in Ha1, Ha2, Hb1, Hb2.
  apply sortsBefore_spec. lia.
Qed.

Example sortTasks_example :
  map title (sortTasks [taskA; taskB; taskC]) = ["B"; "C"; "A"].
Proof. reflexivity. Qed.

End Sorting.

(** ** The view *)

Section View.

Lemma matchesFilters_spec (q fs fp : string) (t : Task) :
  matchesFilters q fs fp t = true <->
  ((exists pre post,
      toLowerCase (title t) = (pre ++ toLowerCase q ++ post)%string) \/ q = "") /\
  (fs = "All" \/ status t = fs) /\
  (fp = "All" \/ priority t = fp).
Proof.
  unfold matchesFilters.
  rewrite !andb_true_iff, !orb_true_iff, !String.eqb_eq, includes_spec.
  split.
  - intros [[Hs Hst] Hp]. repeat split; [now left | assumption | assumption].
  - intros [[Hs | ->] [Hst Hp]]; repeat split; try assumption.
    exists EmptyString, (toLowerCase (title t)). reflexivity.
Qed.

(** C6: whatever permutation of its input [sortTasks] returns, a task is in
    the view iff it is in the collection, its lower-cased title contains the
    lower-cased search text (or the text is empty), the status filter is
    "All" or its status, and the priority filter is "All" or its priority;
    the view holds each such task as often as the collection.  For the
    collection [A (Low); B (High)] and the priority filter "High" the view is
    exactly [B]. *)
Theorem displayTasks_keeps_matching
    (sort : list Task -> list Task) (st : AppState) (q fs fp : string) :
  (forall l, Permutation l (sort l)) ->
  (forall t,
     In t (displayTasks sort st q fs fp) <->
     In t (tasks st) /\
     ((exists pre post,
         toLowerCase (title t) = (pre ++ toLowerCase q ++ post)%string) \/ q = "") /\
     (fs = "All" \/ status t = fs) /\
     (fp = "All" \/ priority t = fp)) /\
  Permutation (filter (matchesFilters q fs fp) (tasks st))
              (displayTasks sort st q fs fp) /\
  (forall ia ra ta roa sa na ca ib rb tb rob sb nb cb,
     displayTasks sort
       (mkState [ mkTask ia "A" ra ta roa "Low" sa na ca;
                  mkTask ib "B" rb tb rob "High" sb nb cb ]
                (lastDeletedTask st) (isUndoVisible st) (isLoading st))
       "" "All" "High" =
     [ mkTask ib "B" rb tb rob "High" sb nb cb ]).
Proof.
  intros Hperm. split; [|split].
  - intros t. unfold displayTasks.
    rewrite <- matchesFilters_spec, <- filter_In.
    split; apply Permutation_in; [symmetry|]; apply Hperm.
  - apply Hperm.
  - intros. unfold displayTasks. cbn [tasks filter matchesFilters title status priority].
    apply Permutation_length_1_inv. apply Hperm.
Qed.

Lemma displayTasks_keeps_matching_witness :
  (forall l, Permutation l (sortTasks l)) /\
  displayTasks sortTasks (hidden [taskA; taskB]) "" "All" "High" = [taskB] /\
  (In taskC (displayTasks sortTasks (hidden [taskA; taskB; taskC]) "c" "In Progress" "All") <->
   In taskC (tasks (hidden [taskA; taskB; taskC])) /\
   ((exists pre post,
       toLowerCase (title taskC) = (pre ++ toLowerCase "c" ++ post)%string) \/ "c" = "") /\
   ("In Progress" = "All" \/ status taskC = "In Progress") /\
   ("All" = "All" \/ priority taskC = "All")).
Proof.
  split; [exact sortTasks_perm|].
  split.
  - exact (proj2 (proj2 (displayTasks_keeps_matching sortTasks (hidden [taskA; taskB])
                          "" "All" "High" sortTasks_perm))
             "a" (ofZ 100) (ofZ 4) (ofZ 25) "Pending" "" 1000
             "b" (ofZ 300) (ofZ 2) (ofZ 150) "Completed" "second" 2000).
  - exact (proj1 (displayTasks_keeps_matching sortTasks (hidden [taskA; taskB; taskC])
                    "c" "In Progress" "All" sortTasks_perm) taskC).
Defined.

End View.

(** ** CSV import *)

Section CsvImport.

Variable generateId : nat -> string.
Variable dateNow : nat -> Z.
Variable calculateROI : number -> number -> number.

Lemma strOr_empty_r (s : string) : strOr s "" = s.
Proof. now destruct s. Qed.

Lemma importLine_accepted (i : nat) (rawLine : string) (newTasks : list Task) :
  accepted rawLine = true ->
  exists t,
    importLine generateId dateNow calculateROI i rawLine newTasks = newTasks ++ [t] /\
    parsedFrom calculateROI rawLine t.
Proof.
  unfold accepted, importLine. intros H.
  apply andb_true_iff in H as [Hne Hlen].
  destruct (isEmpty (trim rawLine)); [discriminate|]. rewrite Hlen.
  eexists. split; [reflexivity|].
  unfold parsedFrom. cbn. repeat split.
  now rewrite strOr_empty_r.
Qed.

Lemma importLine_rejected (i : nat) (rawLine : string) (newTasks : list Task) :
  accepted rawLine = false ->
  importLine generateId dateNow calculateROI i rawLine newTasks = newTasks.
Proof.
  unfold accepted, importLine. intros H.
  destruct (isEmpty (trim rawLine)); [reflexivity|].
  cbn [negb andb] in H. now rewrite H.
Qed.

(** The loop appends one task per accepted line, in the order of the lines. *)
Lemma importLoop_spec (lines : list string) :
  forall (i : nat) (newTasks : list Task),
  exists added,
    importLoop generateId dateNow calculateROI i lines newTasks = newTasks ++ added /\
    Forall2 (parsedFrom calculateROI) (filter accepted lines) added.
Proof.
  induction lines as [|l ls IH]; intros i newTasks; cbn [importLoop filter].
  - exists []. split; [now rewrite app_nil_r | constructor].
  - destruct (accepted l) eqn:Hacc.
    + destruct (importLine_accepted i l newTasks Hacc) as [t [-> Ht]].
      destruct (IH (S i) (newTasks ++ [t])) as [added [-> Hadded]].
      exists (t :: added). split; [now rewrite <- app_assoc | now constructor].
    + rewrite (importLine_rejected i l newTasks Hacc). apply IH.
Qed.

Lemma importedTasks_spec (text : string) :
  Forall2 (parsedFrom calculateROI)
          (filter accepted (tl (split newline text)))
          (importedTasks generateId dateNow calculateROI text).
Proof.
  unfold importedTasks.
  destruct (importLoop_spec (tl (split newline text)) 1 []) as [added [-> H]].
  exact H.
Qed.

Lemma handleImportCSV_prepends (st : AppState) (text : string) :
  tasks (handleImportCSV generateId dateNow calculateROI st text) =
  importedTasks generateId dateNow calculateROI text ++ tasks st.
Proof.
  unfold handleImportCSV.
  destruct (importedTasks generateId dateNow calculateROI text); reflexivity.
Qed.

End CsvImport.

Lemma Forall2_Forall_r {A B : Type} (R : A -> B -> Prop) (P : B -> Prop)
    (l : list A) (l' : list B) :
  (forall a b, R a b -> P b) -> Forall2 R l l' -> Forall P l'.
Proof.
  intros H HF. induction HF; constructor; eauto.
Qed.

(** C4: the import skips the first line; every later line that is not blank
    and has at least 6 comma-separated fields gives one task, in file order,
    and no other line gives any; the task's revenue and timeTaken are the
    numbers [parseFloat] reads, 0 when it reads none; its title and notes
    are the fields without their quote characters; its roi is
    [calculateROI] of its revenue and timeTaken; the new tasks are put before
    the collection.  A file with a header, two valid rows and a row of three
    columns gives exactly two tasks. *)
Theorem handleImportCSV_accepts_rows_of_six
    (generateId : nat -> string) (dateNow : nat -> Z)
    (calculateROI : number -> number -> number)
    (st : AppState) (text : string) :
  let newTasks := importedTasks generateId dateNow calculateROI text in
  Forall2 (parsedFrom calculateROI)
          (filter accepted (tl (split newline text))) newTasks /\
  List.length newTasks = List.length (filter accepted (tl (split newline text))) /\
  Forall (fun t => roi t = calculateROI (revenue t) (timeTaken t)) newTasks /\
  tasks (handleImportCSV generateId dateNow calculateROI st text) =
    newTasks ++ tasks st /\
  (forall field, parseFloat field = NaN -> orElse (parseFloat field) zero = zero) /\
  (forall s, hasChar dquote s = false ->
     removeAll dquote (String dquote (s ++ String dquote ""))%string = s) /\
  (forall header body, hasChar newline header = false ->
     importedTasks generateId dateNow calculateROI
       (header ++ String newline body)%string =
     importLoop generateId dateNow calculateROI 1 (split newline body) []) /\
  (let sample := importedTasks generateId dateNow calculateROI sampleCSV in
   map title sample = ["Write report"; "Call client"] /\
   map revenue sample = [ofZ 1200; zero] /\
   map timeTaken sample = [ofZ 8; Fin (1 # 2)] /\
   map roi sample = [calculateROI (ofZ 1200) (ofZ 8); calculateROI zero (Fin (1 # 2))] /\
   tasks (handleImportCSV generateId dateNow calculateROI st sampleCSV) =
     sample ++ tasks st).
Proof.
  intros newTasks. pose proof (importedTasks_spec generateId dateNow calculateROI text) as Hspec.
  fold newTasks in Hspec.
  split; [exact Hspec|].
  split; [symmetry; eapply Forall2_length; exact Hspec|].
  split.
  { eapply Forall2_Forall_r; [|exact Hspec].
    intros l t Ht. apply Ht. }
  split; [apply handleImportCSV_prepends|].
  split; [intros field H; now rewrite H|].
  split; [apply removeAll_surrounding|].
  split.
  { intros header body Hh. unfold importedTasks.
    now rewrite split_append_sep. }
  cbv zeta. repeat split.
Qed.

Lemma handleImportCSV_accepts_rows_of_six_witness :
  parseFloat "abc" = NaN /\
  hasChar dquote "Call client" = false /\
  hasChar newline "title,revenue" = false /\
  orElse (parseFloat "abc") zero = zero /\
  removeAll dquote (String dquote ("Call client" ++ String dquote ""))%string =
    "Call client" /\
  List.length (importedTasks sampleId sampleNow (calculateROI unitScale) sampleCSV) = 2%nat /\
  importedTasks sampleId sampleNow (calculateROI unitScale)
    ("title,revenue" ++ String newline "x,1,2,3,4,5")%string =
  importLoop sampleId sampleNow (calculateROI unitScale) 1
    (split newline "x,1,2,3,4,5") [].
Proof.
  pose proof (handleImportCSV_accepts_rows_of_six sampleId sampleNow
                (calculateROI unitScale) (hidden []) sampleCSV)
    as [_ [Hlen [_ [_ [Hnan [Hquote [Hheader _]]]]]]].
  do 3 (split; [reflexivity|]).
  split; [exact (Hnan "abc" eq_refl)|].
  split; [exact (Hquote "Call client" eq_refl)|].
  split; [|exact (Hheader "title,revenue" "x,1,2,3,4,5" eq_refl)].
  rewrite Hlen. reflexivity.
Defined.

(** ** The ROI calculator *)

Section RoiFacts.

Local Open Scope Q_scope.

Lemma isZeroQ_false_of_pos (t : Q) : 0 < t -> isZeroQ t = false.
Proof.
  unfold Qlt, isZeroQ. cbn. intros H. apply Z.eqb_neq. lia.
Qed.

(** C5: with the scale constant [s], [calculateROI] of a revenue [r >= 0]
    and a time [t > 0] is the number [r / t * s]; for every revenue it is 0
    when the time is 0; being a total function it returns a number in every
    case, the division being made only for a time that is not 0. *)
Theorem calculateROI_is_scaled_ratio (scale : number) :
  (forall r t s : Q, scale = Fin s -> 0 <= r -> 0 < t ->
     exists q, calculateROI scale (Fin r) (Fin t) = Fin q /\ q == r / t * s) /\
  (forall revenue timeTaken, isZero timeTaken = false ->
     calculateROI scale revenue timeTaken = mul (div revenue timeTaken) scale) /\
  (forall revenue timeTaken, isZero timeTaken = true ->
     calculateROI scale revenue timeTaken = zero) /\
  (forall revenue, calculateROI scale revenue zero = zero).
Proof.
  repeat split.
  - intros r t s -> _ Ht. unfold calculateROI. cbn [isZero div mul].
    rewrite (isZeroQ_false_of_pos t Ht).
    eexists. split; [reflexivity|].
    now rewrite !Qred_correct.
  - intros revenue timeTaken H. unfold calculateROI. now rewrite H.
  - intros revenue timeTaken H. unfold calculateROI. now rewrite H.
Qed.

Lemma calculateROI_is_scaled_ratio_witness :
  unitScale = Fin 1 /\ 0 <= 15000 /\ 0 < 20 /\
  isZero (ofZ 20) = false /\ isZero (Fin (0 # 7)) = true /\
  (exists q, calculateROI unitScale (Fin 15000) (Fin 20) = Fin q /\
             q == 15000 / 20 * 1) /\
  calculateROI unitScale (ofZ 15000) (ofZ 20) =
    mul (div (ofZ 15000) (ofZ 20)) unitScale /\
  calculateROI unitScale (ofZ 15000) (Fin (0 # 7)) = zero.
Proof.
  pose proof (calculateROI_is_scaled_ratio unitScale) as [Hratio [Hnz [Hz _]]].
  split; [reflexivity|].
  split; [discriminate|].
  split; [reflexivity|].
  do 2 (split; [reflexivity|]).
  split; [apply (Hratio 15000 20 1 eq_refl); [discriminate | reflexivity]|].
  split; [exact (Hnz (ofZ 15000) (ofZ 20) eq_refl)|].
  exact (Hz (ofZ 15000) (Fin (0 # 7)) eq_refl).
Defined.

(** The [roi] of each seed task of [loadTasks] is [calculateROI] of its
    revenue and time at the scale 1. *)
Example seeds_agree_with_calculateROI (generateId : nat -> string) (dateNow : nat -> Z) :
  Forall (fun t => roi t = calculateROI unitScale (revenue t) (timeTaken t))
         (initialTasks generateId dateNow).
Proof. repeat constructor. Qed.

End RoiFacts.

(** ** Initial load *)

Section Load.

Variable generateId : nat -> string.
Variable dateNow : nat -> Z.
Variable JSON_parse : string -> option Json.

Lemma isEmpty_spec (s : string) : isEmpty s = true <-> s = "".
Proof. destruct s; split; intros H; try reflexivity; discriminate. Qed.

(** An empty stored value is falsy: it is handled as no stored value. *)
Lemma loadTasks_empty_blob (prev : AppState) :
  loadTasks generateId dateNow JSON_parse (Some "") prev =
  loadTasks generateId dateNow JSON_parse None prev.
Proof. reflexivity. Qed.

(** What the load does with a stored text that is not empty. *)
Lemma loadTasks_present_blob (blob : string) (prev : AppState) :
  blob <> "" ->
  loadTasks generateId dateNow JSON_parse (Some blob) prev =
  match JSON_parse blob with
  | Some v =>
      match asTasks v with
      | Some ts => Loaded (finishLoad prev ts)
      | None => LoadedRaw v
      end
  | None => Thrown
  end.
Proof.
  intros Hne. cbn [loadTasks]. destruct blob; [congruence | reflexivity].
Qed.

End Load.

(** An object with the nine keys of [Task] is the record with those values;
    an object that lacks keys is no [Task] record. *)
Example asTasks_examples :
  asTasks (JArray [JObject [ ("id", JString "a"); ("title", JString "A");
                             ("revenue", JNumber 100); ("timeTaken", JNumber 4);
                             ("roi", JNumber 25); ("priority", JString "Low");
                             ("status", JString "Pending"); ("notes", JString "");
                             ("createdAt", JNumber 1000) ]]) = Some [taskA] /\
  asTasks (JArray [JObject [("id", JString "a")]]) = None /\
  asTasks (JArray []) = Some [] /\
  asTasks JNull = None /\ asTasks (JNumber 5) = None.
Proof. repeat split. Qed.

(** C9, as the spec words it, fails.  A stored text that parses to a list
    with one object that has an [id] only is adopted as the collection: the
    load neither throws nor falls back to the seed set, and what it adopts
    is a list of partial tasks; the stored text [null] is adopted likewise.
    And of two stored texts that [JSON.parse] rejects, the empty one gives
    the seed set and the other one makes the load throw. *)
Lemma loadTasks_adopts_partial_list :
  let prev := mkState [] None false true in
  let seeds := Loaded (finishLoad prev (initialTasks sampleId sampleNow)) in
  let adopted := loadTasks sampleId sampleNow sampleParse (Some partialBlob) prev in
  adopted = LoadedRaw (JArray [JObject [("id", JString "a")]]) /\
  adopted <> Thrown /\ adopted <> seeds /\
  loadTasks sampleId sampleNow sampleParse (Some "null") prev = LoadedRaw JNull /\
  sampleParse "" = None /\
  loadTasks sampleId sampleNow sampleParse (Some "") prev = seeds /\
  sampleParse "[{" = None /\
  loadTasks sampleId sampleNow sampleParse (Some "[{") prev = Thrown.
Proof.
  cbv zeta. split; [reflexivity|].
  split; [discriminate|]. split; [discriminate|].
  repeat split.
Qed.

(** C9 (amended): the load checks nothing about the stored text, and its
    outcome is fixed by that text alone.  No text, or the empty text, gives
    the seed set.  A text that is not empty and that [JSON.parse] rejects
    makes the load throw the parse failure; it never gives the seed set.  A
    text that [JSON.parse] accepts is adopted whole as the collection,
    exactly as parsed: as the list of its tasks when the value is a list of
    [Task] records, and as the raw value otherwise. *)
Theorem loadTasks_adopts_without_check
    (generateId : nat -> string) (dateNow : nat -> Z)
    (JSON_parse : string -> option Json)
    (saved : option string) (prev : AppState) :
  let result := loadTasks generateId dateNow JSON_parse saved prev in
  (saved = None \/ saved = Some "" ->
   result = Loaded (finishLoad prev (initialTasks generateId dateNow))) /\
  (forall blob, saved = Some blob -> blob <> "" -> JSON_parse blob = None ->
     result = Thrown) /\
  (forall blob v ts, saved = Some blob -> blob <> "" ->
     JSON_parse blob = Some v -> asTasks v = Some ts ->
     result = Loaded (finishLoad prev ts)) /\
  (forall blob v, saved = Some blob -> blob <> "" ->
     JSON_parse blob = Some v -> asTasks v = None ->
     result = LoadedRaw v).
Proof.
  intros result. subst result. split; [|split; [|split]].
  - intros [-> | ->]; reflexivity.
  - intros blob -> Hne Hp. rewrite loadTasks_present_blob by assumption.
    now rewrite Hp.
  - intros blob v ts -> Hne Hp Hts. rewrite loadTasks_present_blob by assumption.
    now rewrite Hp, Hts.
  - intros blob v -> Hne Hp Hts. rewrite loadTasks_present_blob by assumption.
    now rewrite Hp, Hts.
Qed.

Lemma loadTasks_adopts_without_check_witness :
  "[{" <> "" /\ sampleParse "[{" = None /\
  "[]" <> "" /\ sampleParse "[]" = Some (JArray []) /\ asTasks (JArray []) = Some [] /\
  "null" <> "" /\ sampleParse "null" = Some JNull /\ asTasks JNull = None /\
  loadTasks sampleId sampleNow sampleParse (Some "[{") (mkState [taskA] None false true)
    = Thrown /\
  loadTasks sampleId sampleNow sampleParse (Some "[]") (mkState [taskA] None false true)
    = Loaded (hidden []) /\
  loadTasks sampleId sampleNow sampleParse (Some "null") (mkState [taskA] None false true)
    = LoadedRaw JNull /\
  loadTasks sampleId sampleNow sampleParse None (mkState [taskA] None false true)
    = Loaded (hidden (initialTasks sampleId sampleNow)).
Proof.
  assert (H1 : "[{" <> "") by discriminate.
  assert (H2 : "[]" <> "") by discriminate.
  assert (H3 : "null" <> "") by discriminate.
  split; [exact H1|]. split; [reflexivity|].
  split; [exact H2|]. do 2 (split; [reflexivity|]).
  split; [exact H3|]. do 2 (split; [reflexivity|]).
  split.
  { exact (proj1 (proj2 (loadTasks_adopts_without_check sampleId sampleNow sampleParse
                           (Some "[{") (mkState [taskA] None false true)))
             "[{" eq_refl H1 eq_refl). }
  split.
  { exact (proj1 (proj2 (proj2 (loadTasks_adopts_without_check sampleId sampleNow
                                  sampleParse (Some "[]") (mkState [taskA] None false true))))
             "[]" (JArray []) [] eq_refl H2 eq_refl eq_refl). }
  split.
  { exact (proj2 (proj2 (proj2 (loadTasks_adopts_without_check sampleId sampleNow
                                  sampleParse (Some "null") (mkState [taskA] None false true))))
             "null" JNull eq_refl H3 eq_refl eq_refl). }
  exact (proj1 (loadTasks_adopts_without_check sampleId sampleNow sampleParse
                  None (mkState [taskA] None false true)) (or_introl eq_refl)).
Defined.

(** ** The undo timer *)

Section Timer.

(** Showing the notification from the hidden state starts a timer of 6000 ms. *)
Lemma commit_enters_visible (rt : Runtime) (next : AppState) :
  isUndoVisible (app rt) = false -> isUndoVisible next = true ->
  timer (commit rt next) = Some (clock rt + 6000).
Proof. intros H H'. unfold commit. now rewrite H, H'. Qed.

(** Hiding the notification clears the timer. *)
Lemma commit_leaves_visible (rt : Runtime) (next : AppState) :
  isUndoVisible (app rt) = true -> isUndoVisible next = false ->
  timer (commit rt next) = None.
Proof. intros H H'. unfold commit. now rewrite H, H'. Qed.

(** An update that leaves the notification visible does not run the effect:
    the timer keeps its deadline. *)
Lemma commit_stays_visible (rt : Runtime) (next : AppState) :
  isUndoVisible (app rt) = true -> isUndoVisible next = true ->
  timer (commit rt next) = timer rt.
Proof. intros H H'. unfold commit. now rewrite H, H'. Qed.

Lemma commit_app (rt : Runtime) (next : AppState) : app (commit rt next) = next.
Proof. unfold commit. now destruct (Bool.eqb _ _). Qed.

Lemma commit_timerMatches (rt : Runtime) (next : AppState) :
  timerMatches rt -> timerMatches (commit rt next).
Proof.
  unfold timerMatches, commit. intros [H1 H2].
  destruct (isUndoVisible (app rt)) eqn:Hv, (isUndoVisible next) eqn:Hn;
    cbn [Bool.eqb app timer]; rewrite ?Hn; split; intros H;
    try discriminate; try reflexivity; auto.
Qed.

(** No timer outlives the notification: along every run the timer is pending
    exactly while the notification is visible. *)
Lemma step_timerMatches (rt : Runtime) (e : Event) :
  timerMatches rt -> timerMatches (step rt e).
Proof.
  intros Hrt. destruct e as [task| | |ms]; cbn [step];
    try now apply commit_timerMatches.
  unfold wait. destruct (timer rt) as [deadline|] eqn:Ht.
  - destruct (deadline <=? clock rt + ms).
    + unfold timerMatches, commit. cbn.
      destruct (isUndoVisible (app rt)); cbn; split; reflexivity.
    + unfold timerMatches in *. cbn [timer app]. rewrite <- Ht. exact Hrt.
  - unfold timerMatches in *. cbn [timer app].
    split; [intros _; now apply Hrt | reflexivity].
Qed.

Lemma run_timerMatches (events : list Event) :
  forall rt, timerMatches rt -> timerMatches (run rt events).
Proof.
  induction events as [|e events IH]; intros rt H; [exact H|].
  apply IH. now apply step_timerMatches.
Qed.

(** A single delete is dismissed 6000 ms later, not before. *)
Lemma single_delete_times_out (ts : list Task) (task : Task) (ms : Z) :
  let rt := run (start ts) [Delete task; Wait ms] in
  lastDeletedTask (app rt) = (if 6000 <=? ms then None else Some task) /\
  isUndoVisible (app rt) = negb (6000 <=? ms).
Proof.
  intros rt. subst rt. unfold run, wait. cbn -[Z.add Z.sub Z.leb].
  change (0 + 6000) with 6000. change (0 + ms) with ms.
  destruct (6000 <=? ms); split; reflexivity.
Qed.

(** A delete made [d] ms after a first one, the notification still showing,
    is dismissed by the first delete's timer: its task is discarded
    [6000 - d] ms after it was deleted. *)
Lemma second_delete_inherits_timer (ts : list Task) (a b : Task) (d : Z) :
  0 <= d < 6000 ->
  let rt := run (start ts) [Delete a; Wait d; Delete b] in
  lastDeletedTask (app rt) = Some b /\
  clock rt = d /\
  timer rt = Some 6000 /\
  lastDeletedTask (app (step rt (Wait (6000 - d)))) = None /\
  isUndoVisible (app (step rt (Wait (6000 - d)))) = false /\
  clock (step rt (Wait (6000 - d))) = 6000.
Proof.
  intros Hd rt. subst rt. unfold run, wait. cbn -[Z.add Z.sub Z.leb].
  assert (H1 : (0 + 6000 <=? 0 + d) = false) by (apply Z.leb_gt; lia).
  rewrite H1. cbn -[Z.add Z.sub Z.leb].
  assert (H2 : (0 + 6000 <=? 0 + d + (6000 - d)) = true) by (apply Z.leb_le; lia).
  rewrite H2. cbn -[Z.add Z.sub Z.leb].
  repeat split; try lia.
Qed.

(** C2 fails on the code: [taskA] is deleted at time 0 and [taskB] at time
    5000, while the notification of [taskA] is still visible.  The timer is
    not started again: it keeps the deadline 6000 of the first delete, and
    at time 6000 it discards [taskB], pending for 1000 ms only, 5000 ms
    before its own deadline of 11000. *)
Theorem stale_timer_discards_later_delete :
  let pending := run (start [taskA; taskB]) [Delete taskA; Wait 5000; Delete taskB] in
  let fired := step pending (Wait 1000) in
  lastDeletedTask (app pending) = Some taskB /\
  isUndoVisible (app pending) = true /\
  clock pending = 5000 /\
  timer pending = Some 6000 /\
  ownDeadline (clock pending) = 11000 /\
  clock fired = 6000 /\
  lastDeletedTask (app fired) = None /\
  isUndoVisible (app fired) = false /\
  tasks (app (step fired Undo)) = [].
Proof. cbv zeta. repeat split. Qed.

(** After an undo in between, the next delete shows the notification anew and
    gets a timer of its own. *)
Example delete_after_undo_restarts_timer :
  timer (run (start [taskA; taskB]) [Delete taskA; Wait 5000; Undo; Delete taskB]) =
  Some 11000.
Proof. reflexivity. Qed.

End Timer.

(** ** CSV export followed by import *)

Section RoundTrip.

Variable numberToString : number -> string.
Variable generateId : nat -> string.
Variable dateNow : nat -> Z.
Variable calculateROI : number -> number -> number.

Lemma trimStart_length (s : string) :
  (String.length (trimStart s) <= String.length s)%nat.
Proof.
  induction s as [|c s IH]; cbn [trimStart]; [reflexivity|].
  destruct (isWhiteSpace c); cbn [String.length]; lia.
Qed.

(** A string that [trimStart] leaves alone still is left alone when a
    character that is not white space, and anything else, follows it. *)
Lemma trimStart_append_fixed (s t : string) (c : ascii) :
  trimStart s = s -> isWhiteSpace c = false ->
  trimStart (s ++ String c t)%string = (s ++ String c t)%string.
Proof.
  intros Hs Hc. destruct s as [|d s]; cbn [trimStart String.append].
  - now rewrite Hc.
  - cbn [trimStart] in Hs. destruct (isWhiteSpace d); [|reflexivity].
    pose proof (trimStart_length s) as Hlen. rewrite Hs in Hlen.
    cbn [String.length] in Hlen. lia.
Qed.

Lemma join_cons (sep : ascii) (s : string) (l : list string) :
  l <> [] -> join sep (s :: l) = (s ++ String sep (join sep l))%string.
Proof. destruct l; [congruence | reflexivity]. Qed.

Lemma app_one_not_nil {A : Type} (l : list A) (a : A) : l ++ [a] <> [].
Proof. destruct l; discriminate. Qed.

(** [trimEnd] of a joined line only touches the last field. *)
Lemma trimEnd_join (fields : list string) (last : string) :
  trimEnd (join comma (fields ++ [last])) = join comma (fields ++ [trimEnd last]).
Proof.
  induction fields as [|f fields IH]; [reflexivity|].
  cbn [Datatypes.app]. rewrite !join_cons by apply app_one_not_nil.
  rewrite trimEnd_append by reflexivity. now rewrite IH.
Qed.

(** Splitting a joined line gives back the fields without commas, then the
    split of the last field. *)
Lemma split_join_last (fields : list string) (last : string) :
  Forall (fun s => hasChar comma s = false) fields ->
  split comma (join comma (fields ++ [last])) = fields ++ split comma last.
Proof.
  induction 1 as [|f fields Hf Hfields IH]; [reflexivity|].
  cbn [Datatypes.app]. rewrite join_cons by apply app_one_not_nil.
  rewrite split_append_sep by assumption. now rewrite IH.
Qed.

Lemma plain_spec (s : string) :
  plain s = true <->
  hasChar comma s = false /\ hasChar dquote s = false /\ hasChar newline s = false.
Proof.
  unfold plain. rewrite !andb_true_iff, !negb_true_iff. tauto.
Qed.

Lemma csvField_plain (s : string) : plain s = true -> csvField s = s.
Proof.
  intros H. apply plain_spec in H as [Hc [Hq _]].
  unfold csvField. now rewrite Hc, Hq.
Qed.

Lemma hasChar_doubleQuotes (c : ascii) (s : string) :
  Ascii.eqb dquote c = false -> hasChar c (doubleQuotes s) = hasChar c s.
Proof.
  intros Hc. induction s as [|d s IH]; [reflexivity|].
  cbn [doubleQuotes]. destruct (Ascii.eqb_spec d dquote) as [->|Hd].
  - cbn [hasChar]. now rewrite Hc, IH.
  - cbn [hasChar]. now rewrite IH.
Qed.

(** Escaping a field brings no line break into it. *)
Lemma hasChar_newline_csvField (s : string) :
  hasChar newline (csvField s) = hasChar newline s.
Proof.
  unfold csvField. destruct (hasChar comma s || hasChar dquote s); [|reflexivity].
  cbn [hasChar]. rewrite hasChar_append, hasChar_doubleQuotes by reflexivity.
  cbn. now rewrite orb_false_r.
Qed.

Lemma isPriority_plain (p : string) :
  isPriority p = true -> plain p = true /\ isEmpty p = false.
Proof.
  unfold isPriority. rewrite !orb_true_iff, !String.eqb_eq.
  intros [[-> | ->] | ->]; split; reflexivity.
Qed.

Lemma isStatus_plain (s : string) :
  isStatus s = true -> plain s = true /\ isEmpty s = false.
Proof.
  unfold isStatus. rewrite !orb_true_iff, !String.eqb_eq.
  intros [[-> | ->] | ->]; split; reflexivity.
Qed.

Lemma strOr_nonempty (a b : string) : isEmpty a = false -> strOr a b = a.
Proof. unfold strOr. now intros ->. Qed.

(** Escaping a field brings no comma into it. *)
Lemma hasChar_comma_csvField (s : string) :
  hasChar comma s = false -> hasChar comma (csvField s) = false.
Proof.
  intros Hs. unfold csvField. rewrite Hs. cbn [orb].
  destruct (hasChar dquote s); [|exact Hs].
  cbn [hasChar]. rewrite hasChar_append, hasChar_doubleQuotes by reflexivity.
  rewrite Hs. reflexivity.
Qed.

(** The fields that the import sees in the exported line of a task. *)
Lemma exported_row_parts (t : Task) :
  exportable numberToString t ->
  trim (csvRow numberToString t) =
    join comma ([ title t; numberToString (revenue t); numberToString (timeTaken t);
                  csvField (numberToString (roi t)); priority t; status t ]
                ++ [trimEnd (csvField (notes t))]) /\
  split comma (trim (csvRow numberToString t)) =
    [ title t; numberToString (revenue t); numberToString (timeTaken t);
      csvField (numberToString (roi t)); priority t; status t ]
    ++ split comma (trimEnd (csvField (notes t))).
Proof.
  intros [Htitle [Hstart [[Hrev _] [[Htime _] [[Hroi _] [Hp [Hs _]]]]]]].
  apply isPriority_plain in Hp as [Hp _]. apply isStatus_plain in Hs as [Hs _].
  assert (Htrim : trim (csvRow numberToString t) =
    join comma ([ title t; numberToString (revenue t); numberToString (timeTaken t);
                  csvField (numberToString (roi t)); priority t; status t ]
                ++ [trimEnd (csvField (notes t))])).
  { unfold csvRow, trim. cbn [map].
    rewrite (csvField_plain (title t)) by assumption.
    rewrite (csvField_plain (numberToString (revenue t))) by assumption.
    rewrite (csvField_plain (numberToString (timeTaken t))) by assumption.
    rewrite (csvField_plain (priority t)) by assumption.
    rewrite (csvField_plain (status t)) by assumption.
    rewrite join_cons by discriminate.
    rewrite trimStart_append_fixed by (assumption || reflexivity).
    rewrite <- join_cons by discriminate.
    apply (trimEnd_join
             [ title t; numberToString (revenue t); numberToString (timeTaken t);
               csvField (numberToString (roi t)); priority t; status t ]). }
  split; [exact Htrim|].
  rewrite Htrim. apply split_join_last.
  repeat constructor; try (now apply plain_spec).
  now apply hasChar_comma_csvField.
Qed.

(** The exported line of an exportable task is accepted, and what the import
    reads from it agrees with the task on the compared fields. *)
Lemma exported_row_reads_back (t : Task) :
  exportable numberToString t ->
  accepted (csvRow numberToString t) = true /\
  hasChar newline (csvRow numberToString t) = false /\
  (forall t', parsedFrom calculateROI (csvRow numberToString t) t' -> sameFields t t').
Proof.
  intros Hexp. destruct (exported_row_parts t Hexp) as [Htrim Hparts].
  destruct Hexp as [Htitle [Hstart [[Hrev Hrev'] [[Htime Htime'] [[_ Hroi] [Hp [Hs Hnotes]]]]]]].
  split; [|split].
  - unfold accepted. cbv zeta. rewrite Hparts, Htrim. apply andb_true_iff. split.
    + cbn [Datatypes.app]. rewrite join_cons by discriminate. now destruct (title t).
    + reflexivity.
  - unfold csvRow. apply hasChar_join; [reflexivity|].
    apply isPriority_plain in Hp as [Hp _]. apply isStatus_plain in Hs as [Hs _].
    cbn [map]. repeat constructor; rewrite hasChar_newline_csvField;
      try assumption; now apply plain_spec.
  - intros t' Hparsed. unfold parsedFrom in Hparsed. cbv zeta in Hparsed.
    rewrite Hparts in Hparsed. cbn [Datatypes.app nth] in Hparsed.
    destruct Hparsed as [Ht [Hr [Htm [_ [Hpr [Hst _]]]]]].
    apply plain_spec in Htitle as [_ [Hq _]].
    rewrite removeAll_absent in Ht by assumption.
    rewrite strOr_nonempty in Hpr by now apply isPriority_plain.
    rewrite strOr_nonempty in Hst by now apply isStatus_plain.
    unfold sameFields. rewrite Ht, Hr, Htm, Hpr, Hst, Hrev', Htime'.
    repeat split.
Qed.

Lemma exported_rows_accepted (ts : list Task) :
  Forall (exportable numberToString) ts ->
  filter accepted (map (csvRow numberToString) ts) = map (csvRow numberToString) ts.
Proof.
  induction 1 as [|t ts Ht Hts IH]; [reflexivity|].
  cbn [map filter]. rewrite (proj1 (exported_row_reads_back t Ht)). now rewrite IH.
Qed.

Lemma exported_rows_read_back (ts : list Task) :
  Forall (exportable numberToString) ts ->
  forall added,
    Forall2 (parsedFrom calculateROI) (map (csvRow numberToString) ts) added ->
    Forall2 sameFields ts added.
Proof.
  induction 1 as [|t ts Ht Hts IH]; intros added Hadded;
    inversion Hadded as [|? t' ? added' Hhead Htail]; subst; constructor.
  - now apply (exported_row_reads_back t Ht).
  - now apply IH.
Qed.

Lemma exported_lines (ts : list Task) :
  Forall (exportable numberToString) ts ->
  split newline (exportTasksToCSV numberToString ts) =
  csvHeader :: map (csvRow numberToString) ts.
Proof.
  intros Hts. unfold exportTasksToCSV. apply split_join; [discriminate|].
  constructor; [reflexivity|].
  apply Forall_map. eapply Forall_impl; [|exact Hts].
  intros t Ht. now apply exported_row_reads_back.
Qed.

End RoundTrip.

(** C8, as the spec words it, fails: a task whose title holds a comma is
    exported between quotes and cut at the comma by the import. *)
Lemma round_trip_breaks_on_comma :
  ~ Forall2 sameFields [taskComma]
      (importedTasks sampleId sampleNow (calculateROI unitScale)
         (exportTasksToCSV showNumber [taskComma])).
Proof.
  intros H. inversion H as [|? ? ? ? [Htitle _] _]; subst.
  discriminate Htitle.
Qed.

(** C8 (amended): when every task has a title without comma, quote, line
    break or leading white space, notes without line break, a priority and a
    status of their types, a revenue and a timeTaken whose text has no
    comma, quote or line break and is read back by [parseFloat(..) || 0], and
    a roi whose text has no comma and no line break, importing the exported
    text gives as many tasks, in the same order, each with the title,
    revenue, timeTaken, priority and status of the task it comes from. *)
Theorem export_then_import_keeps_fields
    (numberToString : number -> string)
    (generateId : nat -> string) (dateNow : nat -> Z)
    (calculateROI : number -> number -> number) (ts : list Task) :
  Forall (exportable numberToString) ts ->
  let imported :=
    importedTasks generateId dateNow calculateROI (exportTasksToCSV numberToString ts) in
  List.length imported = List.length ts /\
  Forall2 sameFields ts imported.
Proof.
  intros Hts imported.
  assert (H : Forall2 sameFields ts imported).
  { apply (exported_rows_read_back numberToString calculateROI ts Hts).
    pose proof (importedTasks_spec generateId dateNow calculateROI
                  (exportTasksToCSV numberToString ts)) as Hspec.
    rewrite exported_lines in Hspec by assumption.
    cbn [tl] in Hspec.
    now rewrite exported_rows_accepted in Hspec. }
  split; [symmetry; eapply Forall2_length; exact H | exact H].
Qed.

Lemma export_then_import_keeps_fields_witness :
  Forall (exportable showNumber) [taskA; taskB; taskC] /\
  map title
    (importedTasks sampleId sampleNow (calculateROI unitScale)
       (exportTasksToCSV showNumber [taskA; taskB; taskC])) = ["A"; "B"; "C"] /\
  Forall2 sameFields [taskA; taskB; taskC]
    (importedTasks sampleId sampleNow (calculateROI unitScale)
       (exportTasksToCSV showNumber [taskA; taskB; taskC])).
Proof.
  assert (Hexp : Forall (exportable showNumber) [taskA; taskB; taskC]).
  { repeat constructor. }
  split; [exact Hexp|]. split; [reflexivity|].
  exact (proj2 (export_then_import_keeps_fields showNumber sampleId sampleNow
                  (calculateROI unitScale) [taskA; taskB; taskC] Hexp)).
Defined.

(** ** More on the store: adding, unique ids, the single slot *)

Section StoreMore.

Lemma optStrOr_nonempty (o : option string) (d : string) :
  d <> "" -> optStrOr o d <> "".
Proof.
  intros Hd. unfold optStrOr, strOr.
  destruct (orDefault o "") eqn:Ho; cbn [isEmpty]; [exact Hd | discriminate].
Qed.

Lemma optNumOr_not_NaN (o : option number) : optNumOr o zero <> NaN.
Proof.
  unfold optNumOr, orElse. destruct (orDefault o NaN) as [| |q]; cbn [truthy].
  - discriminate.
  - discriminate.
  - destruct (negb (isZeroQ q)); discriminate.
Qed.

Lemma optStrOr_kept (o : option string) (d : string) :
  strKeptOr o d (optStrOr o d).
Proof.
  unfold strKeptOr, optStrOr, strOr. split.
  - intros s -> Hs. cbn [orDefault]. destruct s; [congruence | reflexivity].
  - intros [-> | ->]; reflexivity.
Qed.

Lemma optNumOr_kept (o : option number) : numKeptOr o (optNumOr o zero).
Proof.
  unfold numKeptOr, optNumOr, orElse. split.
  - intros n -> Hn. cbn [orDefault]. now rewrite Hn.
  - intros [-> | [n [-> Hn]]]; cbn [orDefault]; [reflexivity | now rewrite Hn].
Qed.

(** X1: [addTask] puts exactly one task before the collection and leaves the
    rest of the state alone; the task's id and createdAt are the fresh ones
    whatever the partial carries; it never has an empty title, priority or
    status, nor a [NaN] number; each of its other seven fields is the value
    of the partial when that value is truthy (a string that is not empty, a
    number that is neither [NaN] nor zero) and the default otherwise. *)
Theorem addTask_prepends_a_filled_task (newId : string) (now : Z) (st : AppState)
    (dialogConfig : DialogConfig) (data : PartialTask) :
  exists t,
    tasks (fst (addTask newId now st dialogConfig data)) = t :: tasks st /\
    lastDeletedTask (fst (addTask newId now st dialogConfig data)) = lastDeletedTask st /\
    isUndoVisible (fst (addTask newId now st dialogConfig data)) = isUndoVisible st /\
    isLoading (fst (addTask newId now st dialogConfig data)) = isLoading st /\
    id t = newId /\ createdAt t = now /\
    title t <> "" /\ priority t <> "" /\ status t <> "" /\
    revenue t <> NaN /\ timeTaken t <> NaN /\ roi t <> NaN /\
    strKeptOr (p_title data) "New Task" (title t) /\
    numKeptOr (p_revenue data) (revenue t) /\
    numKeptOr (p_timeTaken data) (timeTaken t) /\
    numKeptOr (p_roi data) (roi t) /\
    strKeptOr (p_priority data) "Low" (priority t) /\
    strKeptOr (p_status data) "Pending" (status t) /\
    strKeptOr (p_notes data) "" (notes t).
Proof.
  exists (newTaskOf newId now data). cbn [addTask fst setTasks tasks
    lastDeletedTask isUndoVisible isLoading newTaskOf id createdAt title priority
    status notes revenue timeTaken roi].
  do 6 (split; [reflexivity|]).
  do 3 (split; [apply optStrOr_nonempty; discriminate|]).
  do 3 (split; [apply optNumOr_not_NaN|]).
  split; [apply optStrOr_kept|].
  do 3 (split; [apply optNumOr_kept|]).
  split; [apply optStrOr_kept|].
  split; apply optStrOr_kept.
Qed.

Lemma addTask_prepends_a_filled_task_witness :
  p_title (mkPartial (Some "kept?") (Some "") (Some NaN) (Some (ofZ 3)) None None
             (Some "Completed") None (Some 7)) = Some "" /\
  truthy (ofZ 3) = true /\ "Completed" <> "" /\
  exists t,
    tasks (fst (addTask "n1" 42 (hidden [taskA]) initialDialog
             (mkPartial (Some "kept?") (Some "") (Some NaN) (Some (ofZ 3)) None None
                (Some "Completed") None (Some 7))))
      = t :: [taskA] /\
    id t = "n1" /\ createdAt t = 42 /\ title t = "New Task" /\ revenue t = zero /\
    timeTaken t = ofZ 3 /\ roi t = zero /\ priority t = "Low" /\
    status t = "Completed" /\ notes t = "".
Proof.
  split; [reflexivity|]. split; [reflexivity|]. split; [discriminate|].
  destruct (addTask_prepends_a_filled_task "n1" 42 (hidden [taskA]) initialDialog
              (mkPartial (Some "kept?") (Some "") (Some NaN) (Some (ofZ 3)) None None
                 (Some "Completed") None (Some 7)))
    as [t [Htasks [_ [_ [_ [Hid [Hat [_ [_ [_ [_ [_ [_
         [Htitle [Hrev [Htime [Hroi [Hprio [Hstatus Hnotes]]]]]]]]]]]]]]]]]]].
  exists t. split; [exact Htasks|]. split; [exact Hid|]. split; [exact Hat|].
  split; [exact (proj2 Htitle (or_intror eq_refl))|].
  split; [exact (proj2 Hrev (or_intror (ex_intro _ NaN (conj eq_refl eq_refl))))|].
  split; [exact (proj1 Htime (ofZ 3) eq_refl eq_refl)|].
  split; [exact (proj2 Hroi (or_introl eq_refl))|].
  split; [exact (proj2 Hprio (or_introl eq_refl))|].
  split; [exact (proj1 Hstatus "Completed" eq_refl ltac:(discriminate))|].
  exact (proj2 Hnotes (or_introl eq_refl)).
Defined.

Lemma filter_drops_id (task : Task) (l : list Task) :
  ~ In (id task) (map id l) ->
  filter (fun t => negb (String.eqb (id t) (id task))) l = l.
Proof.
  intros Habsent. apply filter_all_true. intros t Ht.
  destruct (String.eqb_spec (id t) (id task)) as [Heq|]; [|reflexivity].
  exfalso. apply Habsent. rewrite <- Heq. now apply in_map.
Qed.

(** X2: when the id drawn for a new task is not in use, deleting the task
    just added gives back the collection as it was, and undoing that delete
    puts the task at the end of the collection, not back at its head. *)
Theorem add_then_delete_gives_back_collection (newId : string) (now : Z)
    (st : AppState) (dialogConfig : DialogConfig) (data : PartialTask) :
  ~ In newId (map id (tasks st)) ->
  let added := fst (addTask newId now st dialogConfig data) in
  let t := newTaskOf newId now data in
  tasks (deleteTask added t) = tasks st /\
  tasks (undoDelete (deleteTask added t)) = tasks st ++ [t].
Proof.
  intros Hfresh added t.
  assert (H : tasks (deleteTask added t) = tasks st).
  { subst added t. cbn [deleteTask addTask fst setTasks tasks filter newTaskOf id].
    rewrite String.eqb_refl. cbn [negb].
    apply (filter_drops_id (newTaskOf newId now data)). exact Hfresh. }
  split; [exact H|].
  unfold undoDelete. cbn [lastDeletedTask deleteTask tasks]. f_equal. exact H.
Qed.

Lemma add_then_delete_gives_back_collection_witness :
  ~ In "n1" (map id (tasks (hidden [taskA; taskB]))) /\
  tasks (deleteTask (fst (addTask "n1" 42 (hidden [taskA; taskB]) initialDialog retitle))
           (newTaskOf "n1" 42 retitle)) = [taskA; taskB].
Proof.
  assert (Hfresh : ~ In "n1" (map id (tasks (hidden [taskA; taskB])))).
  { cbn. intros [H | [H | []]]; discriminate H. }
  split; [exact Hfresh|].
  exact (proj1 (add_then_delete_gives_back_collection "n1" 42 (hidden [taskA; taskB])
                  initialDialog retitle Hfresh)).
Defined.

(** Dropping tasks from a collection keeps its ids different. *)
Lemma kept_ids_unique (keep : Task -> bool) (ts : list Task) :
  NoDup (map id ts) -> NoDup (map id (filter keep ts)).
Proof.
  induction ts as [|t ts IH]; cbn [filter map]; intros Hts; [constructor|].
  inversion Hts as [|? ? Hfresh Hrest]; subst.
  destruct (keep t); [|now apply IH].
  cbn [map]. constructor; [|now apply IH].
  intros Hin. apply Hfresh. apply in_map_iff in Hin as [x [Hx Hxin]].
  apply in_map_iff. exists x. split; [exact Hx|].
  apply filter_In in Hxin. tauto.
Qed.

Lemma deleted_id_is_gone (task : Task) (l : list Task) :
  ~ In (id task)
       (map id (filter (fun t => negb (String.eqb (id t) (id task))) l)).
Proof.
  intros Hin. apply in_map_iff in Hin as [x [Hx Hxin]].
  apply filter_In in Hxin as [_ Hneq].
  rewrite Hx, String.eqb_refl in Hneq. discriminate.
Qed.

Lemma NoDup_snoc {A : Type} (l : list A) (a : A) :
  NoDup l -> ~ In a l -> NoDup (l ++ [a]).
Proof.
  intros Hl Ha. apply NoDup_app; [assumption | repeat constructor; intros [] |].
  intros x Hx [<- | []]. now apply Ha.
Qed.

(** X3: a collection whose ids are all different keeps that property under
    [deleteTask], under [deleteTask] followed by [undoDelete] (for any task,
    in the collection or not), under [addTask] with an id not in use, and
    under [updateTask] with a partial that has no [id] key. *)
Theorem ids_stay_unique (st : AppState) :
  NoDup (map id (tasks st)) ->
  (forall task, NoDup (map id (tasks (deleteTask st task)))) /\
  (forall task, NoDup (map id (tasks (undoDelete (deleteTask st task))))) /\
  (forall newId now dialogConfig data,
     ~ In newId (map id (tasks st)) ->
     NoDup (map id (tasks (fst (addTask newId now st dialogConfig data))))) /\
  (forall dialogConfig data,
     p_id data = None ->
     NoDup (map id (tasks (fst (updateTask st dialogConfig data))))).
Proof.
  intros Hst. repeat split.
  - intros task. cbn [deleteTask tasks]. now apply kept_ids_unique.
  - intros task. cbn [undoDelete deleteTask lastDeletedTask tasks].
    rewrite map_app. cbn [map]. apply NoDup_snoc.
    + now apply kept_ids_unique.
    + apply deleted_id_is_gone.
  - intros newId now dialogConfig data Hfresh.
    cbn [addTask fst setTasks tasks map newTaskOf id]. now constructor.
  - intros dialogConfig data Hid. unfold updateTask.
    destruct (selectedTask dialogConfig) as [sel|]; [|exact Hst].
    cbn [fst setTasks tasks]. rewrite map_map.
    erewrite map_ext; [exact Hst|].
    intros t. cbn beta. destruct (String.eqb (id t) (id sel)); [|reflexivity].
    cbn [spread id]. now rewrite Hid.
Qed.

Lemma ids_stay_unique_witness :
  NoDup (map id (tasks (hidden [taskA; taskB]))) /\
  ~ In "n1" (map id (tasks (hidden [taskA; taskB]))) /\
  p_id retitle = None /\
  NoDup (map id (tasks (undoDelete (deleteTask (hidden [taskA; taskB]) taskC)))) /\
  NoDup (map id (tasks (fst (addTask "n1" 42 (hidden [taskA; taskB]) initialDialog retitle)))) /\
  NoDup (map id (tasks (fst (updateTask (hidden [taskA; taskB]) (editing taskA) retitle)))).
Proof.
  assert (Hnd : NoDup (map id (tasks (hidden [taskA; taskB])))).
  { cbn. repeat constructor; cbn; intros H; repeat destruct H as [H | H];
      try discriminate H; exact H. }
  assert (Hfresh : ~ In "n1" (map id (tasks (hidden [taskA; taskB])))).
  { cbn. intros [H | [H | []]]; discriminate H. }
  destruct (ids_stay_unique (hidden [taskA; taskB]) Hnd) as [_ [Hundo [Hadd Hupd]]].
  split; [exact Hnd|]. split; [exact Hfresh|]. split; [reflexivity|].
  split; [exact (Hundo taskC)|].
  split; [exact (Hadd "n1" 42 initialDialog retitle Hfresh)|].
  exact (Hupd (editing taskA) retitle eq_refl).
Defined.

(** X4: the slot holds one task.  After deleting [a] and then [b], whose ids
    differ, undo brings back [b] only: no task with the id of [a] is in the
    collection, the slot is empty, and a further undo changes nothing. *)
Theorem second_delete_loses_first (st : AppState) (a b : Task) :
  id a <> id b ->
  let st' := undoDelete (deleteTask (deleteTask st a) b) in
  (forall t, In t (tasks st') -> id t <> id a) /\
  In b (tasks st') /\
  lastDeletedTask st' = None /\
  undoDelete st' = st'.
Proof.
  intros Hab st'. subst st'.
  cbn [undoDelete deleteTask lastDeletedTask tasks]. repeat split.
  - intros t Ht. apply in_app_or in Ht as [Ht | [<- | []]].
    + apply filter_In in Ht as [Ht _]. apply filter_In in Ht as [_ Hneq].
      intros Heq. rewrite Heq, String.eqb_refl in Hneq. discriminate.
    + congruence.
  - apply in_or_app. right. now left.
Qed.

Lemma second_delete_loses_first_witness :
  id taskA <> id taskB /\
  In taskA (tasks (hidden [taskA; taskB; taskC])) /\
  (forall t,
     In t (tasks (undoDelete (deleteTask (deleteTask (hidden [taskA; taskB; taskC]) taskA) taskB))) ->
     id t <> id taskA).
Proof.
  assert (Hab : id taskA <> id taskB) by discriminate.
  split; [exact Hab|]. split; [now left|].
  exact (proj1 (second_delete_loses_first (hidden [taskA; taskB; taskC]) taskA taskB Hab)).
Defined.

(** X5: once the notification is dismissed the delete is final: the undo
    that follows changes nothing, and no task with the deleted id is in the
    collection. *)
Theorem dismiss_makes_delete_final (st : AppState) (task : Task) :
  let dismissed := closeUndoSnackbar (deleteTask st task) in
  undoDelete dismissed = dismissed /\
  tasks dismissed = tasks (deleteTask st task) /\
  (forall t, In t (tasks (undoDelete dismissed)) -> id t <> id task).
Proof.
  cbv zeta. repeat split.
  intros t Ht. cbn in Ht. apply filter_In in Ht as [_ Hneq].
  intros Heq. rewrite Heq, String.eqb_refl in Hneq. discriminate.
Qed.

End StoreMore.

(** ** More on the undo timer: what every run keeps *)

Section TimerMore.

Lemma deleteTask_slotMatches (st : AppState) (task : Task) :
  slotMatches (deleteTask st task).
Proof. unfold slotMatches. cbn. split; [discriminate | reflexivity]. Qed.

Lemma closeUndoSnackbar_slotMatches (st : AppState) :
  slotMatches (closeUndoSnackbar st).
Proof. unfold slotMatches. cbn. split; [discriminate | congruence]. Qed.

Lemma undoDelete_slotMatches (st : AppState) :
  slotMatches st -> slotMatches (undoDelete st).
Proof.
  intros Hst. unfold undoDelete. destruct (lastDeletedTask st); [|exact Hst].
  unfold slotMatches. cbn. split; [discriminate | congruence].
Qed.

Lemma wait_app (ms : Z) (rt : Runtime) :
  app (wait ms rt) = app rt \/ app (wait ms rt) = closeUndoSnackbar (app rt).
Proof.
  unfold wait. destruct (timer rt) as [deadline|]; [|now left].
  destruct (deadline <=? clock rt + ms); [right | now left].
  cbn [app]. apply commit_app.
Qed.

Lemma step_slotMatches (rt : Runtime) (e : Event) :
  slotMatches (app rt) -> slotMatches (app (step rt e)).
Proof.
  intros Hrt. destruct e as [task| | |ms]; cbn [step]; rewrite ?commit_app.
  - apply deleteTask_slotMatches.
  - now apply undoDelete_slotMatches.
  - apply closeUndoSnackbar_slotMatches.
  - destruct (wait_app ms rt) as [-> | ->];
      [exact Hrt | apply closeUndoSnackbar_slotMatches].
Qed.

Lemma start_timerMatches (ts : list Task) : timerMatches (start ts).
Proof. unfold timerMatches. cbn. split; reflexivity. Qed.

(** X6: after any sequence of deletes, undos, dismissals and waits from the
    loaded state, a timer is pending exactly while the notification is
    visible, and the notification is visible exactly while a deleted task is
    in the slot. *)
Theorem run_keeps_timer_and_slot (ts : list Task) (events : list Event) :
  timerMatches (run (start ts) events) /\
  slotMatches (app (run (start ts) events)).
Proof.
  split; [apply run_timerMatches, start_timerMatches|].
  assert (H : forall rt, slotMatches (app rt) -> slotMatches (app (run rt events))).
  { induction events as [|e events IH]; intros rt Hrt; [exact Hrt|].
    apply IH. now apply step_slotMatches. }
  apply H. unfold slotMatches. cbn. split; [discriminate | congruence].
Qed.

Lemma commit_deadlineInRange (rt : Runtime) (next : AppState) :
  deadlineInRange rt -> deadlineInRange (commit rt next).
Proof.
  unfold deadlineInRange, commit. intros Hrt deadline.
  destruct (Bool.eqb (isUndoVisible (app rt)) (isUndoVisible next));
    cbn [timer clock]; [apply Hrt|].
  destruct (isUndoVisible next); [|discriminate].
  intros H. injection H as <-. lia.
Qed.

Lemma step_deadlineInRange (rt : Runtime) (e : Event) :
  match e with Wait ms => 0 <= ms | _ => True end ->
  deadlineInRange rt -> deadlineInRange (step rt e).
Proof.
  intros He Hrt. destruct e as [task| | |ms]; cbn [step];
    try now apply commit_deadlineInRange.
  unfold wait. destruct (timer rt) as [deadline|] eqn:Ht.
  - destruct (deadline <=? clock rt + ms) eqn:Hdue.
    + unfold deadlineInRange, commit. cbn [timer clock app isUndoVisible closeUndoSnackbar].
      intros d. destruct (Bool.eqb (isUndoVisible (app rt)) false); discriminate.
    + unfold deadlineInRange. cbn [timer clock]. intros d Hd.
      injection Hd as <-. apply Z.leb_gt in Hdue.
      pose proof (Hrt deadline Ht). lia.
  - unfold deadlineInRange. cbn [timer]. discriminate.
Qed.

(** X7: when no wait is negative, a pending timer is always due later than
    now and at most 6000 ms from now: along any run from the loaded state
    the notification cannot outlast the 6000 ms of the timer that started
    with it. *)
Theorem deadline_stays_in_range (ts : list Task) (events : list Event) :
  forwardInTime events -> deadlineInRange (run (start ts) events).
Proof.
  intros Hev.
  assert (H : forall rt, deadlineInRange rt -> deadlineInRange (run rt events)).
  { induction Hev as [|e events He Hev IH]; intros rt Hrt; [exact Hrt|].
    apply IH. now apply step_deadlineInRange. }
  apply H. unfold deadlineInRange. cbn. discriminate.
Qed.

Lemma deadline_stays_in_range_witness :
  forwardInTime [Delete taskA; Wait 2500; Delete taskB; Wait 100] /\
  (forall deadline,
     timer (run (start [taskA; taskB]) [Delete taskA; Wait 2500; Delete taskB; Wait 100])
       = Some deadline ->
     clock (run (start [taskA; taskB]) [Delete taskA; Wait 2500; Delete taskB; Wait 100])
       < deadline <=
     clock (run (start [taskA; taskB]) [Delete taskA; Wait 2500; Delete taskB; Wait 100])
       + 6000).
Proof.
  assert (Hev : forwardInTime [Delete taskA; Wait 2500; Delete taskB; Wait 100]).
  { unfold forwardInTime. repeat constructor; discriminate. }
  split; [exact Hev|].
  exact (deadline_stays_in_range [taskA; taskB]
           [Delete taskA; Wait 2500; Delete taskB; Wait 100] Hev).
Defined.

(** X8: once the notification is hidden, by undo, dismissal or timeout, the
    passing of time changes nothing in the store: no timer of an earlier
    delete is left to fire. *)
Theorem hidden_store_ignores_time (ts : list Task) (events : list Event) (ms : Z) :
  isUndoVisible (app (run (start ts) events)) = false ->
  app (step (run (start ts) events) (Wait ms)) = app (run (start ts) events) /\
  timer (step (run (start ts) events) (Wait ms)) = None.
Proof.
  intros Hhidden.
  pose proof (run_timerMatches events (start ts) (start_timerMatches ts)) as Htimer.
  apply Htimer in Hhidden. cbn [step]. unfold wait. rewrite Hhidden.
  split; reflexivity.
Qed.

Lemma hidden_store_ignores_time_witness :
  isUndoVisible (app (run (start [taskA; taskB]) [Delete taskA; Wait 5000; Undo])) = false /\
  tasks (app (step (run (start [taskA; taskB]) [Delete taskA; Wait 5000; Undo]) (Wait 1000)))
    = [taskB; taskA].
Proof.
  split; [reflexivity|].
  rewrite (proj1 (hidden_store_ignores_time [taskA; taskB]
                    [Delete taskA; Wait 5000; Undo] 1000 eq_refl)).
  reflexivity.
Defined.

(** X9: a delete followed by 6000 ms or more without a user action is
    final: the slot is empty, the notification hidden, no timer pending, and
    undo changes nothing.  Before 6000 ms have passed the task is still
    pending and undo puts it back. *)
Theorem delete_is_final_after_timeout (ts : list Task) (task : Task) (ms : Z) :
  (6000 <= ms ->
   let rt := run (start ts) [Delete task; Wait ms] in
   tasks (app rt) = filter (fun t => negb (String.eqb (id t) (id task))) ts /\
   lastDeletedTask (app rt) = None /\
   isUndoVisible (app rt) = false /\
   timer rt = None /\
   app (step rt Undo) = app rt) /\
  (ms < 6000 ->
   let rt := run (start ts) [Delete task; Wait ms] in
   lastDeletedTask (app rt) = Some task /\
   tasks (app (step rt Undo)) =
     filter (fun t => negb (String.eqb (id t) (id task))) ts ++ [task] /\
   timer (step rt Undo) = None).
Proof.
  split; intros Hms rt; subst rt; unfold run, wait;
    cbn -[Z.add Z.sub Z.leb]; change (0 + 6000) with 6000; change (0 + ms) with ms.
  - apply Z.leb_le in Hms. rewrite Hms. cbn. repeat split.
  - apply Z.leb_gt in Hms. rewrite Hms. cbn. repeat split.
Qed.

Lemma delete_is_final_after_timeout_witness :
  6000 <= 6000 /\ 5999 < 6000 /\
  lastDeletedTask (app (run (start [taskA; taskB]) [Delete taskA; Wait 6000])) = None /\
  tasks (app (step (run (start [taskA; taskB]) [Delete taskA; Wait 5999]) Undo))
    = [taskB; taskA].
Proof.
  destruct (delete_is_final_after_timeout [taskA; taskB] taskA 6000) as [Hlate _].
  destruct (delete_is_final_after_timeout [taskA; taskB] taskA 5999) as [_ Hearly].
  split; [discriminate|]. split; [reflexivity|].
  split.
  - exact (proj1 (proj2 (Hlate ltac:(discriminate)))).
  - exact (proj1 (proj2 (Hearly eq_refl))).
Defined.

End TimerMore.

(** ** The dialog *)

Section DialogFacts.

Lemma initialDialog_consistent : dialogConsistent initialDialog.
Proof. unfold dialogConsistent. cbn. split; [now left | reflexivity]. Qed.

Lemma uiStep_consistent (s : AppState * DialogConfig) (e : UiEvent) :
  dialogConsistent (snd s) -> dialogConsistent (snd (uiStep s e)).
Proof.
  destruct s as [st dc]. cbn [snd]. intros Hdc.
  destruct e as [|t|t| |data newId now]; cbn [uiStep snd].
  - unfold dialogConsistent. cbn. split; [now right | reflexivity].
  - unfold dialogConsistent. cbn. split; [discriminate | intros [H | H]; discriminate H].
  - unfold dialogConsistent. cbn. split; [discriminate | intros [H | H]; discriminate H].
  - unfold dialogConsistent, onClose. cbn. split; [now left | reflexivity].
  - unfold onSubmit. destruct (type dc) eqn:Hty.
    + unfold dialogConsistent in *. cbn [addTask snd selectedTask isOpen type].
      split; [now left|]. intros _. apply Hdc. now right.
    + unfold updateTask. destruct (selectedTask dc) eqn:Hsel; cbn [snd]; [|exact Hdc].
      unfold dialogConsistent. cbn. split; [now left | reflexivity].
    + unfold updateTask. destruct (selectedTask dc) eqn:Hsel; cbn [snd]; [|exact Hdc].
      unfold dialogConsistent. cbn. split; [now left | reflexivity].
Qed.

Lemma uiRun_consistent (events : list UiEvent) :
  forall s, dialogConsistent (snd s) -> dialogConsistent (snd (uiRun s events)).
Proof.
  induction events as [|e events IH]; intros s Hs; [exact Hs|].
  apply IH. now apply uiStep_consistent.
Qed.

(** X10: whatever the user does with the dialog, from its initial state, no
    task is selected exactly when the dialog is closed or in add mode: an
    open edit or view dialog always has its task, and a task selected
    earlier never stays behind a closed dialog or an add dialog. *)
Theorem dialog_stays_consistent (st : AppState) (events : list UiEvent) :
  dialogConsistent (snd (uiRun (st, initialDialog) events)).
Proof. apply uiRun_consistent, initialDialog_consistent. Qed.

Lemma map_length_eq {A B : Type} (f : A -> B) (l : list A) :
  List.length (map f l) = List.length l.
Proof. induction l; cbn; congruence. Qed.

(** X11: a submit from an open dialog, reached by any use of the dialog,
    always closes it and clears the selection.  In add mode it puts one new
    task before the collection and touches no other; in edit or view mode
    it runs [updateTask] on the selected task, so the number of tasks stays
    the same and the tasks with another id stay as they are. *)
Theorem submit_adds_or_updates (st0 : AppState) (events : list UiEvent)
    (data : PartialTask) (newId : string) (now : Z) :
  let st := fst (uiRun (st0, initialDialog) events) in
  let dialogConfig := snd (uiRun (st0, initialDialog) events) in
  isOpen dialogConfig = true ->
  let after := uiStep (st, dialogConfig) (Submit data newId now) in
  isOpen (snd after) = false /\
  selectedTask (snd after) = None /\
  (type dialogConfig = add ->
   tasks (fst after) = newTaskOf newId now data :: tasks st) /\
  (type dialogConfig <> add ->
   exists sel,
     selectedTask dialogConfig = Some sel /\
     fst after = fst (updateTask st dialogConfig data) /\
     List.length (tasks (fst after)) = List.length (tasks st) /\
     (forall t, In t (tasks st) -> id t <> id sel -> In t (tasks (fst after)))).
Proof.
  intros st dialogConfig Hopen after.
  assert (Hcons : dialogConsistent dialogConfig)
    by (apply uiRun_consistent, initialDialog_consistent).
  subst after. cbn [uiStep]. unfold onSubmit.
  destruct (type dialogConfig) eqn:Hty.
  - assert (Hsel : selectedTask dialogConfig = None) by (apply Hcons; now right).
    cbn [addTask fst snd isOpen selectedTask setTasks tasks].
    repeat split; [exact Hsel | congruence].
  - destruct (selectedTask dialogConfig) as [sel|] eqn:Hsel.
    + unfold updateTask. rewrite Hsel. cbn [fst snd isOpen selectedTask setTasks tasks].
      repeat split; [discriminate|]. intros _. exists sel.
      repeat split.
      * apply map_length_eq.
      * intros t Ht Hne. apply in_map_iff. exists t. split; [|exact Ht].
        destruct (String.eqb_spec (id t) (id sel)); [contradiction | reflexivity].
    + exfalso. destruct Hcons as [Hc _]. destruct (Hc Hsel) as [H | H]; congruence.
  - destruct (selectedTask dialogConfig) as [sel|] eqn:Hsel.
    + unfold updateTask. rewrite Hsel. cbn [fst snd isOpen selectedTask setTasks tasks].
      repeat split; [discriminate|]. intros _. exists sel.
      repeat split.
      * apply map_length_eq.
      * intros t Ht Hne. apply in_map_iff. exists t. split; [|exact Ht].
        destruct (String.eqb_spec (id t) (id sel)); [contradiction | reflexivity].
    + exfalso. destruct Hcons as [Hc _]. destruct (Hc Hsel) as [H | H]; congruence.
Qed.

Lemma submit_adds_or_updates_witness :
  isOpen (snd (uiRun (hidden [taskA; taskB], initialDialog)
                 [OpenEdit taskA; CloseDialog; OpenView taskB])) = true /\
  type (snd (uiRun (hidden [taskA; taskB], initialDialog)
               [OpenEdit taskA; CloseDialog; OpenView taskB])) <> add /\
  isOpen (snd (uiStep (uiRun (hidden [taskA; taskB], initialDialog)
                         [OpenEdit taskA; CloseDialog; OpenView taskB])
                      (Submit retitle "n1" 42))) = false /\
  List.length (tasks (fst (uiStep (uiRun (hidden [taskA; taskB], initialDialog)
                                     [OpenEdit taskA; CloseDialog; OpenView taskB])
                                  (Submit retitle "n1" 42)))) = 2%nat.
Proof.
  pose proof (submit_adds_or_updates (hidden [taskA; taskB])
                [OpenEdit taskA; CloseDialog; OpenView taskB] retitle "n1" 42 eq_refl)
    as [Hclosed [_ [_ Hupd]]].
  assert (Hmode : type (snd (uiRun (hidden [taskA; taskB], initialDialog)
                               [OpenEdit taskA; CloseDialog; OpenView taskB])) <> add)
    by discriminate.
  split; [reflexivity|]. split; [exact Hmode|]. split; [exact Hclosed|].
  destruct (Hupd Hmode) as [sel [_ [_ [Hlen _]]]]. exact Hlen.
Defined.

End DialogFacts.

(** ** Persistence and the mount guard *)

Section Persistence.

Variable generateId : nat -> string.
Variable dateNow : nat -> Z.
Variable JSON_parse : string -> option Json.
Variable JSON_stringify : list Task -> string.

(** X12: what a session stored is what the next session loads.  For a state
    that is not loading and a collection whose text is not empty and is read
    back by [JSON.parse] as the value of that collection, the load that
    follows [persist] adopts exactly that collection, whatever was stored
    before; this holds for the empty collection too, which is not replaced
    by the seed set. *)
Theorem persisted_collection_is_reloaded (st prev : AppState) (storage : option string) :
  isLoading st = false ->
  isEmpty (JSON_stringify (tasks st)) = false ->
  (exists v, JSON_parse (JSON_stringify (tasks st)) = Some v /\
             asTasks v = Some (tasks st)) ->
  loadTasks generateId dateNow JSON_parse (persist JSON_stringify st storage) prev =
  Loaded (finishLoad prev (tasks st)).
Proof.
  intros Hloaded Hne [v [Hparse Hv]]. unfold persist. rewrite Hloaded.
  cbn [loadTasks]. now rewrite Hne, Hparse, Hv.
Qed.

(** X13: a task added while the state is still loading is not stored, and
    the load drops it: the collection after the load is the one the load
    would have produced without the addition. *)
Theorem load_discards_earlier_addition (st : AppState) (dialogConfig : DialogConfig)
    (data : PartialTask) (newId : string) (now : Z)
    (saved storage : option string) :
  isLoading st = true ->
  let early := fst (addTask newId now st dialogConfig data) in
  persist JSON_stringify early storage = storage /\
  match loadTasks generateId dateNow JSON_parse saved st,
        loadTasks generateId dateNow JSON_parse saved early with
  | Loaded r, Loaded r' => tasks r' = tasks r /\ isLoading r' = false
  | LoadedRaw v, LoadedRaw v' => v' = v
  | Thrown, Thrown => True
  | _, _ => False
  end.
Proof.
  intros Hloading early. subst early. split.
  - unfold persist. cbn [addTask fst setTasks isLoading]. now rewrite Hloading.
  - destruct saved as [blob|]; cbn [loadTasks].
    + destruct (isEmpty blob); [split; reflexivity|].
      destruct (JSON_parse blob) as [v|]; [|exact I].
      destruct (asTasks v); [split; reflexivity | reflexivity].
    + split; reflexivity.
Qed.

End Persistence.

Lemma persisted_collection_is_reloaded_witness :
  isLoading (hidden []) = false /\
  isEmpty (sampleStringify (tasks (hidden []))) = false /\
  (exists v, sampleParse (sampleStringify (tasks (hidden []))) = Some v /\
             asTasks v = Some (tasks (hidden []))) /\
  loadTasks sampleId sampleNow sampleParse
    (persist sampleStringify (hidden []) (Some "[?]")) (mkState [] None false true) =
  Loaded (hidden []).
Proof.
  assert (Hback : exists v, sampleParse (sampleStringify (tasks (hidden []))) = Some v /\
                            asTasks v = Some (tasks (hidden [])))
    by (exists (JArray []); split; reflexivity).
  do 2 (split; [reflexivity|]). split; [exact Hback|].
  exact (persisted_collection_is_reloaded sampleId sampleNow sampleParse sampleStringify
           (hidden []) (mkState [] None false true) (Some "[?]")
           eq_refl eq_refl Hback).
Defined.

Lemma load_discards_earlier_addition_witness :
  isLoading (mkState [] None false true) = true /\
  persist sampleStringify
    (fst (addTask "n1" 42 (mkState [] None false true) initialDialog retitle))
    (Some "[]") = Some "[]".
Proof.
  split; [reflexivity|].
  exact (proj1 (load_discards_earlier_addition sampleId sampleNow sampleParse
                  sampleStringify (mkState [] None false true) initialDialog retitle
                  "n1" 42 (Some "[]") (Some "[]") eq_refl)).
Defined.

Lemma mountEffects_fetched (n : nat) : mountEffects n true = (true, 0%nat).
Proof.
  induction n as [|n IH]; [reflexivity|].
  cbn [mountEffects mountEffect]. now rewrite IH.
Qed.

(** X14: however often the mount effect runs, once or more, [loadTasks] is
    scheduled exactly once, by the first run; [isFetched] stays set. *)
Theorem mount_effect_loads_once (n : nat) :
  mountEffects (S n) false = (true, 1%nat).
Proof.
  cbn [mountEffects mountEffect]. now rewrite mountEffects_fetched.
Qed.

(** ** More on the CSV import *)

Section ImportMore.

Variable generateId : nat -> string.
Variable dateNow : nat -> Z.
Variable calculateROI : number -> number -> number.

(** A line either adds nothing or adds one task, which takes the next id and
    the time of the call less 1000 ms per line index. *)
Lemma importLine_cases (i : nat) (rawLine : string) (newTasks : list Task) :
  importLine generateId dateNow calculateROI i rawLine newTasks = newTasks \/
  exists t,
    importLine generateId dateNow calculateROI i rawLine newTasks = newTasks ++ [t] /\
    id t = generateId (List.length newTasks) /\
    createdAt t = dateNow (List.length newTasks) - Z.of_nat i * 1000.
Proof.
  unfold importLine. destruct (isEmpty (trim rawLine)); [now left|].
  destruct (6 <=? List.length (split comma (trim rawLine)))%nat; [|now left].
  right. eexists. split; [reflexivity|]. split; reflexivity.
Qed.



Lemma StronglySorted_snoc {A : Type} (R : A -> A -> Prop) (l : list A) (a : A) :
  StronglySorted R l -> Forall (fun x => R x a) l -> StronglySorted R (l ++ [a]).
Proof.
  induction 1 as [|x l Hl IH Hx]; intros Hall; cbn [Datatypes.app].
  - repeat constructor.
  - inversion Hall as [|? ? Hxa Hla]; subst. constructor; [now apply IH|].
    apply Forall_app. split; [exact Hx | now constructor].
Qed.

Lemma importLoop_times (now : Z) (lines : list string) :
  (forall k, dateNow k = now) ->
  forall (i : nat) (newTasks : list Task),
  (1 <= i)%nat ->
  StronglySorted (fun a b => createdAt b < createdAt a) newTasks ->
  Forall (fun a => now - Z.of_nat i * 1000 < createdAt a < now) newTasks ->
  let result := importLoop generateId dateNow calculateROI i lines newTasks in
  StronglySorted (fun a b => createdAt b < createdAt a) result /\
  Forall (fun a => createdAt a < now) result.
Proof.
  intros Hnow. induction lines as [|l ls IH]; intros i newTasks Hi Hsorted Hall;
    cbn [importLoop].
  - split; [exact Hsorted|]. eapply Forall_impl; [|exact Hall]. cbn. lia.
  - apply IH; [lia | |].
    + destruct (importLine_cases i l newTasks) as [-> | [t [-> [_ Hat]]]];
        [exact Hsorted|].
      apply StronglySorted_snoc; [exact Hsorted|].
      eapply Forall_impl; [|exact Hall]. cbn. rewrite Hat, Hnow. lia.
    + destruct (importLine_cases i l newTasks) as [-> | [t [-> [_ Hat]]]].
      * eapply Forall_impl; [|exact Hall]. cbn. lia.
      * apply Forall_app. split.
        -- eapply Forall_impl; [|exact Hall]. cbn. lia.
        -- constructor; [|constructor]. rewrite Hat, Hnow. lia.
Qed.

(** X16: when the clock does not move during an import, the tasks of the
    import have strictly decreasing [createdAt] in file order, all earlier
    than the time of the import: a later line of the file gives an older
    task. *)
Theorem imported_times_decrease (now : Z) (text : string) :
  (forall k, dateNow k = now) ->
  StronglySorted (fun a b => createdAt b < createdAt a)
    (importedTasks generateId dateNow calculateROI text) /\
  Forall (fun a => createdAt a < now)
    (importedTasks generateId dateNow calculateROI text).
Proof.
  intros Hnow. unfold importedTasks.
  apply (importLoop_times now (tl (split newline text)) Hnow 1 []);
    [lia | constructor | constructor].
Qed.

Lemma trimEnd_snoc_space (s : string) (c : ascii) :
  isWhiteSpace c = true -> trimEnd (s ++ String c "")%string = trimEnd s.
Proof.
  intros Hc. induction s as [|d s IH]; cbn [String.append trimEnd].
  - cbn [isEmpty]. now rewrite Hc.
  - now rewrite IH.
Qed.

(** White space at the end of a line is trimmed away. *)
Lemma trim_snoc_space (s : string) (c : ascii) :
  isWhiteSpace c = true -> trim (s ++ String c "")%string = trim s.
Proof.
  intros Hc. unfold trim. induction s as [|d s IH]; cbn [String.append trimStart].
  - now rewrite Hc.
  - destruct (isWhiteSpace d); [exact IH|].
    now apply (trimEnd_snoc_space (String d s)).
Qed.

(** X17: a file with Windows line endings is read like the same file with
    Unix line endings: a carriage return at the end of each line changes
    nothing in the tasks that the import loop builds. *)
Theorem import_ignores_carriage_returns (lines : list string) :
  forall (i : nat) (newTasks : list Task),
  importLoop generateId dateNow calculateROI i
    (map (fun l => (l ++ String carriageReturn "")%string) lines) newTasks =
  importLoop generateId dateNow calculateROI i lines newTasks.
Proof.
  induction lines as [|l ls IH]; intros i newTasks; cbn [map importLoop];
    [reflexivity|].
  rewrite IH. f_equal. unfold importLine.
  now rewrite trim_snoc_space.
Qed.

(** X18: an import that accepts no line changes nothing at all: this holds
    for an empty file, for a file with a header only, and for a file whose
    lines after the first are all blank or shorter than 6 fields. *)
Theorem import_without_rows_changes_nothing (st : AppState) (text : string) :
  filter accepted (tl (split newline text)) = [] ->
  handleImportCSV generateId dateNow calculateROI st text = st.
Proof.
  intros Hnone.
  pose proof (importedTasks_spec generateId dateNow calculateROI text) as Hspec.
  rewrite Hnone in Hspec. unfold handleImportCSV.
  destruct (importedTasks generateId dateNow calculateROI text) as [|t ts];
    [reflexivity | inversion Hspec].
Qed.

End ImportMore.


Lemma imported_times_decrease_witness :
  (forall k, sampleNow k = 1700000000000) /\
  Forall (fun a => createdAt a < 1700000000000)
    (importedTasks sampleId sampleNow (calculateROI unitScale) sampleCSV).
Proof.
  assert (Hnow : forall k, sampleNow k = 1700000000000) by reflexivity.
  split; [exact Hnow|].
  exact (proj2 (imported_times_decrease sampleId sampleNow (calculateROI unitScale)
                  1700000000000 sampleCSV Hnow)).
Defined.

Lemma import_without_rows_changes_nothing_witness :
  filter accepted (tl (split newline "title,revenue,timeTaken,roi,priority,status,notes"))
    = [] /\
  filter accepted (tl (split newline "")) = [] /\
  handleImportCSV sampleId sampleNow (calculateROI unitScale) (hidden [taskA])
    "title,revenue,timeTaken,roi,priority,status,notes" = hidden [taskA] /\
  handleImportCSV sampleId sampleNow (calculateROI unitScale) (hidden [taskA]) ""
    = hidden [taskA].
Proof.
  do 2 (split; [reflexivity|]).
  split.
  - exact (import_without_rows_changes_nothing sampleId sampleNow (calculateROI unitScale)
             (hidden [taskA]) "title,revenue,timeTaken,roi,priority,status,notes" eq_refl).
  - exact (import_without_rows_changes_nothing sampleId sampleNow (calculateROI unitScale)
             (hidden [taskA]) "" eq_refl).
Defined.

(** ** More on the view *)

Section ViewMore.

Variable sort : list Task -> list Task.
Hypothesis sort_permutes : forall l, Permutation l (sort l).

Lemma displayTasks_In (st : AppState) (q fs fp : string) (t : Task) :
  In t (displayTasks sort st q fs fp) <->
  In t (tasks st) /\ matchesFilters q fs fp t = true.
Proof.
  unfold displayTasks. rewrite <- filter_In.
  split; apply Permutation_in; [symmetry|]; apply sort_permutes.
Qed.

(** X19: a deleted task is gone from the view at once, under every search
    text and every filter: no displayed task has its id. *)
Theorem deleted_task_is_not_displayed (st : AppState) (task : Task)
    (q fs fp : string) (t : Task) :
  In t (displayTasks sort (deleteTask st task) q fs fp) -> id t <> id task.
Proof.
  intros Ht. apply displayTasks_In in Ht as [Ht _].
  cbn [deleteTask tasks] in Ht. apply filter_In in Ht as [_ Hneq].
  intros Heq. rewrite Heq, String.eqb_refl in Hneq. discriminate.
Qed.

(** X20: with an empty search text and both filters on "All" the view is
    the whole collection, reordered; any search text and any filter only
    take tasks away from that view. *)
Theorem unfiltered_view_shows_everything (st : AppState) :
  Permutation (tasks st) (displayTasks sort st "" "All" "All") /\
  (forall q fs fp t,
     In t (displayTasks sort st q fs fp) ->
     In t (displayTasks sort st "" "All" "All")).
Proof.
  assert (Hall : forall t, matchesFilters "" "All" "All" t = true).
  { intros t. unfold matchesFilters.
    change (toLowerCase "") with "". now rewrite includes_empty. }
  split.
  - unfold displayTasks. rewrite filter_all_true by (intros; apply Hall).
    apply sort_permutes.
  - intros q fs fp t Ht. apply displayTasks_In in Ht as [Ht _].
    apply displayTasks_In. split; [exact Ht | apply Hall].
Qed.

End ViewMore.

Lemma toLowerCase_idempotent (s : string) :
  toLowerCase (toLowerCase s) = toLowerCase s.
Proof.
  induction s as [|c s IH]; cbn [toLowerCase]; [reflexivity|].
  rewrite IH. f_equal. unfold lowerChar.
  destruct ((65 <=? nat_of_ascii c) && (nat_of_ascii c <=? 90))%nat eqn:Hup;
    [|now rewrite Hup].
  apply andb_true_iff in Hup as [Hlo Hhi].
  apply Nat.leb_le in Hlo, Hhi.
  rewrite nat_ascii_embedding by lia.
  destruct ((65 <=? nat_of_ascii c + 32) && (nat_of_ascii c + 32 <=? 90))%nat eqn:Hup';
    [|reflexivity].
  apply andb_true_iff in Hup' as [_ Hhi']. apply Nat.leb_le in Hhi'. lia.
Qed.

(** X21: the search does not see case: two search texts with the same lower
    case give the same view, so a text can be typed in lower case without a
    change; and of two tasks that differ in the case of their titles only,
    the filter keeps both or neither. *)
Theorem search_ignores_case (sort : list Task -> list Task) (st : AppState)
    (q q' fs fp : string) :
  toLowerCase q = toLowerCase q' ->
  displayTasks sort st q fs fp = displayTasks sort st q' fs fp /\
  displayTasks sort st (toLowerCase q) fs fp = displayTasks sort st q fs fp /\
  (forall t t',
     toLowerCase (title t) = toLowerCase (title t') ->
     status t = status t' -> priority t = priority t' ->
     matchesFilters q fs fp t = matchesFilters q fs fp t').
Proof.
  intros Hq. unfold displayTasks, matchesFilters. split; [|split].
  - now rewrite Hq.
  - now rewrite toLowerCase_idempotent.
  - intros t t' Ht Hs Hp. now rewrite Ht, Hs, Hp.
Qed.

Lemma deleted_task_is_not_displayed_witness :
  (forall l, Permutation l (sortTasks l)) /\
  In taskB (displayTasks sortTasks (deleteTask (hidden [taskA; taskB]) taskA) "" "All" "All") /\
  id taskB <> id taskA.
Proof.
  assert (Hin : In taskB (displayTasks sortTasks
                            (deleteTask (hidden [taskA; taskB]) taskA) "" "All" "All"))
    by (left; reflexivity).
  split; [exact sortTasks_perm|]. split; [exact Hin|].
  exact (deleted_task_is_not_displayed sortTasks sortTasks_perm
           (hidden [taskA; taskB]) taskA "" "All" "All" taskB Hin).
Defined.

Lemma unfiltered_view_shows_everything_witness :
  (forall l, Permutation l (sortTasks l)) /\
  In taskB (displayTasks sortTasks (hidden [taskA; taskB; taskC]) "b" "Completed" "High") /\
  In taskB (displayTasks sortTasks (hidden [taskA; taskB; taskC]) "" "All" "All").
Proof.
  assert (Hin : In taskB (displayTasks sortTasks (hidden [taskA; taskB; taskC])
                            "b" "Completed" "High"))
    by (left; reflexivity).
  split; [exact sortTasks_perm|]. split; [exact Hin|].
  exact (proj2 (unfiltered_view_shows_everything sortTasks sortTasks_perm
                  (hidden [taskA; taskB; taskC])) "b" "Completed" "High" taskB Hin).
Defined.

Lemma search_ignores_case_witness :
  toLowerCase "SaLeS" = toLowerCase "sales" /\
  displayTasks sortTasks (hidden [taskA; taskB]) "SaLeS" "All" "All" =
  displayTasks sortTasks (hidden [taskA; taskB]) "sales" "All" "All".
Proof.
  split; [reflexivity|].
  exact (proj1 (search_ignores_case sortTasks (hidden [taskA; taskB])
                  "SaLeS" "sales" "All" "All" eq_refl)).
Defined.

(** ** More on [updateTask] *)

Section UpdateMore.

Lemma spread_twice (t : Task) (data : PartialTask) :
  spread (spread t data) data = spread t data.
Proof.
  unfold spread. cbn [id title revenue timeTaken roi priority status notes createdAt].
  destruct data as [i ti r tt ro p s n c].
  cbn [p_id p_title p_revenue p_timeTaken p_roi p_priority p_status p_notes p_createdAt].
  destruct i, ti, r, tt, ro, p, s, n, c; reflexivity.
Qed.

(** X22: [updateTask] looks at the id of the selected task only.  When no
    task of the collection has that id, as for a task deleted since it was
    selected, the collection stays as it is, yet the dialog closes and the
    selection is cleared. *)
Theorem updateTask_with_stale_selection (st : AppState) (dialogConfig : DialogConfig)
    (data : PartialTask) (sel : Task) :
  selectedTask dialogConfig = Some sel ->
  ~ In (id sel) (map id (tasks st)) ->
  fst (updateTask st dialogConfig data) = st /\
  isOpen (snd (updateTask st dialogConfig data)) = false /\
  selectedTask (snd (updateTask st dialogConfig data)) = None.
Proof.
  intros Hsel Habsent. unfold updateTask. rewrite Hsel. cbn [fst snd isOpen selectedTask].
  repeat split. destruct st as [ts slot visible loading].
  unfold setTasks. cbn [tasks lastDeletedTask isUndoVisible isLoading] in *.
  f_equal. rewrite <- (map_id ts) at 2. apply map_ext_in. intros t Ht.
  destruct (String.eqb_spec (id t) (id sel)) as [Heq|]; [|reflexivity].
  exfalso. apply Habsent. rewrite <- Heq. now apply in_map.
Qed.

Lemma updateTask_with_stale_selection_witness :
  selectedTask (editing taskC) = Some taskC /\
  ~ In (id taskC) (map id (tasks (deleteTask (hidden [taskA; taskC]) taskC))) /\
  fst (updateTask (deleteTask (hidden [taskA; taskC]) taskC) (editing taskC) retitle) =
    deleteTask (hidden [taskA; taskC]) taskC.
Proof.
  assert (Habsent : ~ In (id taskC)
            (map id (tasks (deleteTask (hidden [taskA; taskC]) taskC)))).
  { cbn. intros [H | []]. discriminate H. }
  split; [reflexivity|]. split; [exact Habsent|].
  exact (proj1 (updateTask_with_stale_selection
                  (deleteTask (hidden [taskA; taskC]) taskC) (editing taskC)
                  retitle taskC eq_refl Habsent)).
Defined.

(** X23: submitting an edit twice is the same as submitting it once: for a
    partial without an [id] key, a second [updateTask] with the same
    selection and the same partial leaves the collection as the first one
    made it.  A partial without any key changes no task. *)
Theorem updateTask_is_idempotent (st : AppState) (dialogConfig : DialogConfig)
    (data : PartialTask) :
  p_id data = None ->
  tasks (fst (updateTask (fst (updateTask st dialogConfig data)) dialogConfig data)) =
    tasks (fst (updateTask st dialogConfig data)) /\
  tasks (fst (updateTask st dialogConfig
                (mkPartial None None None None None None None None None))) = tasks st.
Proof.
  intros Hid. unfold updateTask.
  destruct (selectedTask dialogConfig) as [sel|]; cbn [fst setTasks tasks];
    [|split; reflexivity].
  split.
  - rewrite map_map. apply map_ext. intros t.
    destruct (String.eqb (id t) (id sel)) eqn:Heq.
    + assert (Hkeep : id (spread t data) = id t) by (cbn [spread id]; now rewrite Hid).
      rewrite Hkeep, Heq. apply spread_twice.
    + now rewrite Heq.
  - rewrite <- (map_id (tasks st)) at 2. apply map_ext. intros t.
    destruct (String.eqb (id t) (id sel)); [apply spread_empty | reflexivity].
Qed.

Lemma updateTask_is_idempotent_witness :
  p_id retitle = None /\
  tasks (fst (updateTask (fst (updateTask (hidden [taskA; taskB]) (editing taskA) retitle))
                (editing taskA) retitle)) =
  tasks (fst (updateTask (hidden [taskA; taskB]) (editing taskA) retitle)).
Proof.
  split; [reflexivity|].
  exact (proj1 (updateTask_is_idempotent (hidden [taskA; taskB]) (editing taskA)
                  retitle eq_refl)).
Defined.

End UpdateMore.
